(** * Zone mapping editor and dashboard reconciliation

    A shallow embedding of the zone editor (ZoneMappingModal), the
    permission helper it calls, and the merge steps of the dashboard
    widgets (KPICards, PlatformGrid), followed by the properties the
    specification states about them.

    Conventions of the embedding:
    - a JavaScript object is an association list in property enumeration
      order ([Object.keys] is [map fst]); property read is first match;
    - the editor's [zones] state is a finite map from zone name to
      [option Zone]: a missing key reads [undefined], [Some None] is
      [null], [Some (Some z)] is a two-point segment;
    - JavaScript numbers are exact: rationals in the coordinate
      conversion, integers for counts. *)

From Stdlib Require Import ZArith QArith Qround Lia.
From stdpp Require Import gmap strings list fin_maps.

Local Open Scope string_scope.
Local Open Scope list_scope.

(** ** JSON values and JavaScript truthiness *)

Module Js.

#[warnings="-register-all"]
Inductive json : Type :=
| JNull
| JBool (b : bool)
| JNum (n : Q)
| JStr (s : string)
| JArr (items : list json)
| JObj (fields : list (string * json)).

(** A parsed JSON object: its properties in enumeration order. *)
Definition object : Type := list (string * json).

(** [o[k]]: [None] stands for [undefined]. *)
Fixpoint get (o : object) (k : string) : option json :=
  match o with
  | [] => None
  | (k', v) :: rest => if decide (k' = k) then Some v else get rest k
  end.

(** [Object.keys(o)]. *)
Definition keys (o : object) : list string := map fst o.

(** [!!s] for a string. *)
Definition truthy_string (s : string) : bool :=
  match s with EmptyString => false | _ => true end.

(** [!!n] for an integer count. *)
Definition truthy_Z (n : Z) : bool := negb (n =? 0)%Z.

(** [!!v] for a JSON value. *)
Definition truthy (v : json) : bool :=
  match v with
  | JNull => false
  | JBool b => b
  | JNum n => negb (Qeq_bool n 0)
  | JStr s => truthy_string s
  | JArr _ | JObj _ => true
  end.

(** [!!x] where [x] may be [undefined]. *)
Definition truthy_opt (v : option json) : bool :=
  match v with Some w => truthy w | None => false end.

(** [names.includes(k)]. *)
Definition includes (names : list string) (k : string) : bool :=
  bool_decide (k ∈ names).

End Js.

Import Js.

(** ** Permissions (lib/permissions) *)

Module Permissions.

Inductive Role := admin | viewer.

Record User := {
  role : Role;
  page_permissions : option (list string)
}.

Definition AVAILABLE_PAGES : list string :=
  ["dashboard"; "reports"; "api_docs"; "audit"; "cameras";
   "registrations"; "users"].

Record UserPermissions := {
  up_role : Role;
  up_page_permissions : list string
}.

Definition normalizeUserPermissions (user : option User)
  : option UserPermissions :=
  match user with
  | None => None
  | Some u =>
      let raw := default [] (page_permissions u) in
      let filtered := filter (λ p, includes AVAILABLE_PAGES p = true) raw in
      Some {| up_role := role u; up_page_permissions := filtered |}
  end.

Definition hasPagePermission (userOrPermissions : option User)
    (page : string) : bool :=
  match normalizeUserPermissions userOrPermissions with
  | Some {| up_role := admin |} => true
  | Some p => includes (up_page_permissions p) page
  | None => false
  end.

(** [canManageViewers]. *)
Definition canManageViewers (userOrPermissions : option User) : bool :=
  match normalizeUserPermissions userOrPermissions with
  | Some {| up_role := admin |} => true
  | Some p => includes (up_page_permissions p) "users"
  | None => false
  end.

(** [getAccessiblePages]. *)
Definition getAccessiblePages (userOrPermissions : option User)
  : list string :=
  match normalizeUserPermissions userOrPermissions with
  | Some {| up_role := admin |} => AVAILABLE_PAGES
  | Some p => up_page_permissions p
  | None => []
  end.

(** [validatePermissions] on a [Partial<UserPermissions>]: only the
    optional page list matters (a list that is no array is outside the
    type). *)
Definition validatePermissions (page_permissions : option (list string))
  : bool :=
  match page_permissions with
  | Some pages => forallb (includes AVAILABLE_PAGES) pages
  | None => true
  end.

(** [getDefaultPermissions(role).page_permissions]. *)
Definition getDefaultPermissions (r : Role) : list string :=
  match r with
  | admin => AVAILABLE_PAGES
  | viewer => []
  end.

End Permissions.

(** ** Canonical coordinates *)

Module Canonical.

(** [getBoundingClientRect()] of the canvas. *)
Record DOMRect := {
  rect_left : Q;
  rect_top : Q;
  rect_width : Q;
  rect_height : Q
}.

Record MouseEvent := { clientX : Q; clientY : Q }.

(** [Math.round]: nearest integer, ties towards +infinity. *)
Definition Math_round (q : Q) : Z := Qfloor (q + (1 # 2)).

(** The two conversions of [handleCanvasClick]; a zero width or height
    (where JavaScript yields NaN or an infinity) is outside the model. *)
Definition canonicalX (rect : DOMRect) (e : MouseEvent) : Z :=
  Math_round (((clientX e - rect_left rect) / rect_width rect) * 1020).

Definition canonicalY (rect : DOMRect) (e : MouseEvent) : Z :=
  Math_round (((clientY e - rect_top rect) / rect_height rect) * 600).

(** Modelled from the spec: the inverse linear map of the coordinate
    round trip, which the source leaves to the browser (the 1020x600
    canvas bitmap is stretched over its display rectangle). *)
Definition toScreen (rect : DOMRect) (x y : Z) : MouseEvent :=
  {| clientX := rect_left rect + (inject_Z x / 1020) * rect_width rect;
     clientY := rect_top rect + (inject_Z y / 600) * rect_height rect |}.

End Canonical.

Import Canonical.

(** ** Zones *)

Record Point := { x : json; y : json }.

Definition Zone : Type := Point * Point.

(** The point a click produces: both coordinates are rounded numbers. *)
Definition canon (px py : Z) : Point :=
  {| x := JNum (inject_Z px); y := JNum (inject_Z py) |}.

Definition FIXED_ZONE_NAMES : list string := ["A"; "B"; "C"].

(** [const { p1, p2 } = v] followed by the array-shape test: the value a
    slot receives from the remote entry [v] ([None] is [null]).  A value
    that is not an object has no [p1]; destructuring [null] throws and
    the handler stores [null] as well. *)
Definition decodeZone (v : json) : option Zone :=
  match v with
  | JObj fields =>
      match get fields "p1", get fields "p2" with
      | Some (JArr [a; b]), Some (JArr [c; d]) =>
          Some ({| x := a; y := b |}, {| x := c; y := d |})
      | _, _ => None
      end
  | _ => None
  end.

(** [{ p1: [z[0].x, z[0].y], p2: [z[1].x, z[1].y] }]. *)
Definition encodeZone (z : Zone) : json :=
  JObj [("p1", JArr [x (fst z); y (fst z)]);
        ("p2", JArr [x (snd z); y (snd z)])].

(** ** Persistence bridge: normalising and serialising zone maps *)

Module Persistence.

(** The editor's [zones] object. *)
Abbreviation Zones := (gmap string (option Zone)).

(** What a request to the backend yields: the response body (absent or
    an object keyed by zone name), or a rejected promise. *)
Inductive Response :=
| NetworkError
| Body (data : option object).

(** [data && data[name]]. *)
Definition remoteEntry (data : option object) (name : string)
  : option json :=
  match data with
  | Some o => get o name
  | None => None
  end.

(** First loop of [loadInitialData]: a fixed name present (and truthy)
    in the payload is decoded in place. *)
Definition directMatch (data : option object) (loadedZones : Zones)
    (name : string) : Zones :=
  match remoteEntry data name with
  | Some v =>
      if truthy v then <[name := decodeZone v]> loadedZones
      else loadedZones
  | None => loadedZones
  end.

Definition directMatches (data : option object) : Zones :=
  foldl (directMatch data) ∅ FIXED_ZONE_NAMES.

(** The inner [while]: step [fillIndex] over the slots that already hold
    a value ([loadedZones[...] !== undefined]); [names] is the part of
    [FIXED_ZONE_NAMES] from [fillIndex] on. *)
Fixpoint skipAssigned (loadedZones : Zones) (names : list string)
    (fillIndex : nat) : nat :=
  match names with
  | [] => fillIndex
  | name :: rest =>
      match loadedZones !! name with
      | Some _ => skipAssigned loadedZones rest (S fillIndex)
      | None => fillIndex
      end
  end.

Definition advance (loadedZones : Zones) (fillIndex : nat) : nat :=
  skipAssigned loadedZones (drop fillIndex FIXED_ZONE_NAMES) fillIndex.

(** Second loop of [loadInitialData], over [backendKeys]. *)
Fixpoint fillRemaining (o : object) (backendKeys : list string)
    (fillIndex : nat) (loadedZones : Zones) : Zones :=
  match backendKeys with
  | [] => loadedZones
  | k :: rest =>
      if includes FIXED_ZONE_NAMES k
      then fillRemaining o rest fillIndex loadedZones
      else
        let fillIndex := advance loadedZones fillIndex in
        match FIXED_ZONE_NAMES !! fillIndex with
        | None => loadedZones
        | Some slot =>
            let zone := get o k ≫= decodeZone in
            fillRemaining o rest (S fillIndex) (<[slot := zone]> loadedZones)
        end
  end.

(** Third loop: [if (!(n in loadedZones)) loadedZones[n] = null]. *)
Definition ensureFixed (loadedZones : Zones) : Zones :=
  foldl (λ m n, match m !! n with
                | Some _ => m
                | None => <[n := None]> m
                end) loadedZones FIXED_ZONE_NAMES.

(** The value [loadInitialData] passes to [setZones]. *)
Definition normalizeZones (data : option object) : Zones :=
  let o := default [] data in
  ensureFixed (fillRemaining o (keys o) 0 (directMatches data)).

(** The reload of [handleSave] and [clearAll]: exact names only, every
    other slot [null]. *)
Definition reloadSlot (data : option object) (reloaded : Zones)
    (name : string) : Zones :=
  match remoteEntry data name with
  | Some v =>
      if truthy v then <[name := decodeZone v]> reloaded
      else <[name := None]> reloaded
  | None => <[name := None]> reloaded
  end.

Definition reloadZones (data : option object) : Zones :=
  foldl (reloadSlot data) ∅ FIXED_ZONE_NAMES.

(** The body [handleSave] and the per-zone clear post: the fixed names
    whose slot is truthy, in order. *)
Definition serializeZones (zones : Zones) : object :=
  omap (λ z, match zones !! z with
             | Some (Some zone) => Some (z, encodeZone zone)
             | _ => None
             end) FIXED_ZONE_NAMES.

(** The fixed names as a set of keys. *)
Definition fixedNames : gset string := list_to_set FIXED_ZONE_NAMES.

(** [cleared] of [clearAll]. *)
Definition clearedZones : Zones :=
  foldl (λ m n, <[n := None]> m) ∅ FIXED_ZONE_NAMES.

End Persistence.

Import Persistence.

(** ** The editor: state, effects and event handlers *)

Module Editor.

Record State := {
  zones : Zones;
  currentZone : option string;
  tempPoints : list Point
}.

(** What a handler does besides updating the state. *)
Inductive Effect :=
| Post (platform : string) (data : object)
| DispatchZonesUpdated (platform : string) (detail : Zones + object)
| Alert (message : string)
| OnClose.

(** [useState] initial values. *)
Definition initial : State :=
  {| zones := ∅; currentZone := None; tempPoints := [] |}.

Section Handlers.

Variable user : option Permissions.User.
Variable platform : string.

Definition canEditZones : bool :=
  Permissions.hasPagePermission user "cameras".

(** [!!currentZone]. *)
Definition hasCurrentZone (st : State) : bool :=
  match currentZone st with
  | Some z => truthy_string z
  | None => false
  end.

Definition loadInitialData (st : State) (zonesRes : Response) : State :=
  match zonesRes with
  | NetworkError => st
  | Body data =>
      {| zones := normalizeZones data;
         currentZone := currentZone st;
         tempPoints := tempPoints st |}
  end.

(** The zone button's [onClick]. *)
Definition selectZone (st : State) (z : string) : State :=
  if negb canEditZones then st
  else {| zones := zones st; currentZone := Some z; tempPoints := [] |}.

(** [rect] is [None] while the canvas is not mounted. *)
Definition handleCanvasClick (st : State) (rect : option DOMRect)
    (e : MouseEvent) : State :=
  if negb canEditZones || negb (hasCurrentZone st)
     || (2 <=? length (tempPoints st))%nat
  then st
  else
    match rect, currentZone st with
    | Some rect, Some z =>
        let newPoints :=
          tempPoints st ++ [canon (canonicalX rect e) (canonicalY rect e)] in
        {| zones :=
             match newPoints with
             | [p1; p2] => <[z := Some (p1, p2)]> (zones st)
             | _ => zones st
             end;
           currentZone := currentZone st;
           tempPoints := newPoints |}
    | _, _ => st
    end.

(** The per-zone trash icon's [onClick]; [confirmed] is the answer to
    the confirmation dialog, [posted] whether the request succeeded. *)
Definition clearZone (st : State) (z : string) (confirmed posted : bool)
  : State * list Effect :=
  if negb canEditZones then (st, [])
  else if negb confirmed then (st, [])
  else
    let copy := <[z := None]> (zones st) in
    let data := serializeZones copy in
    ({| zones := copy;
        currentZone := currentZone st;
        tempPoints := tempPoints st |},
     Post platform data ::
       (if posted then [DispatchZonesUpdated platform (inr data)] else [])).

(** [clearAll] up to its first [await]. *)
Definition clearAll (st : State) (confirmed : bool) : State * list Effect :=
  if negb confirmed then (st, [])
  else
    ({| zones := clearedZones; currentZone := None; tempPoints := [] |},
     [Post platform []]).

(** The rest of a request chain once the post has [posted] and the
    following [get_zones] has answered [zonesRes]. *)
Definition afterPost (st : State) (posted : bool) (zonesRes : Response)
    (failure : string) (andThen : list Effect) : State * list Effect :=
  match posted, zonesRes with
  | true, Body data =>
      let reloaded := reloadZones data in
      ({| zones := reloaded;
          currentZone := currentZone st;
          tempPoints := tempPoints st |},
       DispatchZonesUpdated platform (inl reloaded) :: andThen)
  | _, _ => (st, [Alert failure])
  end.

Definition clearAll_resume (st : State) (posted : bool)
    (zonesRes : Response) : State * list Effect :=
  afterPost st posted zonesRes "Failed to clear zones on the server." [].

(** [handleSave] up to its first [await]. *)
Definition handleSave (st : State) : State * list Effect :=
  (st, [Post platform (serializeZones (zones st))]).

Definition handleSave_resume (st : State) (posted : bool)
    (zonesRes : Response) : State * list Effect :=
  afterPost st posted zonesRes "Failed to save zones." [OnClose].

(** The events the editor reacts to; [OpClose] is a click on the header
    X or on the Cancel/Close button, whose [onClick] is [onClose]. *)
Inductive Op :=
| OpLoad (zonesRes : Response)
| OpSelectZone (z : string)
| OpClick (rect : option DOMRect) (e : MouseEvent)
| OpClearZone (z : string) (confirmed posted : bool)
| OpClearAll (confirmed : bool)
| OpClearAllResume (posted : bool) (zonesRes : Response)
| OpSave
| OpSaveResume (posted : bool) (zonesRes : Response)
| OpClose.

Definition step (st : State) (op : Op) : State * list Effect :=
  match op with
  | OpLoad r => (loadInitialData st r, [])
  | OpSelectZone z => (selectZone st z, [])
  | OpClick rect e => (handleCanvasClick st rect e, [])
  | OpClearZone z c p => clearZone st z c p
  | OpClearAll c => clearAll st c
  | OpClearAllResume p r => clearAll_resume st p r
  | OpSave => handleSave st
  | OpSaveResume p r => handleSave_resume st p r
  | OpClose => (st, [OnClose])
  end.

(** The states some sequence of events leads to. *)
Inductive reachable : State → Prop :=
| reachable_initial : reachable initial
| reachable_step st op : reachable st → reachable (fst (step st op)).

End Handlers.

End Editor.

(** ** The backend's zone store *)

Module Backend.

Import Editor.

(** Modelled from the spec: the zones the backend keeps for each
    platform, behind [POST /set_zones/{platform}] and
    [GET /get_zones/{platform}]; the backend's code is not among the
    sources. *)
Abbreviation Store := (gmap string object).

(** Modelled from the spec: a post makes its body the platform's zones,
    so a zone the body leaves out is cleared, and the empty object clears
    them all. *)
Definition set_zones (store : Store) (platform : string) (body : object)
  : Store :=
  <[platform := body]> store.

(** Modelled from the spec: a get answers the zones kept for the
    platform, the empty object when there are none. *)
Definition get_zones (store : Store) (platform : string) : object :=
  default [] (store !! platform).

(** Modelled from the spec: the store once the requests among a
    handler's effects have been served, in order. *)
Definition afterEffects (store : Store) (effects : list Effect) : Store :=
  foldl (λ st e, match e with
                 | Post platform body => set_zones st platform body
                 | _ => st
                 end) store effects.

End Backend.

(** ** Dashboard widgets *)

Module Dashboard.

Local Open Scope Z_scope.

(** [x || 0] for an optional count. *)
Definition orZero (v : option Z) : Z := default 0 v.

(** [!!x] for an optional count. *)
Definition truthy_count (v : option Z) : bool :=
  match v with Some n => truthy_Z n | None => false end.

(** Per-zone counters of a platform, or a cached zone geometry (which
    carries no counter). *)
Record ZoneEntry := {
  zone_loaded : option Z;
  zone_unloaded : option Z
}.

(** One platform of a today-summary or [dashboard_update] payload. *)
Record PlatformStats := {
  total_loaded : option Z;
  total_unloaded : option Z;
  status : option string;
  stat_zones : option (list (string * ZoneEntry))
}.

(** The [platforms] object of a payload; a platform may be [null]. *)
Definition PlatformsPayload : Type := list (string * option PlatformStats).

Record Totals := {
  live_loaded : option Z;
  live_unloaded : option Z;
  live_balance : option Z
}.

(** The real-time channel's message. *)
Record RealtimeData := {
  total : option Totals;
  platforms : option PlatformsPayload
}.

Fixpoint lookup_platform (p : PlatformsPayload) (k : string)
  : option PlatformStats :=
  match p with
  | [] => None
  | (k', v) :: rest => if decide (k' = k) then v else lookup_platform rest k
  end.

(** *** KPI cards *)

Module KPICards.

Record Stats := { loaded : Z; unloaded : Z; balance : Z }.

Record Bucket := {
  carregados : option Z;
  descarregados : option Z
}.

Inductive TimeFilter := hour | day | week | month | all | custom.

Record TimeRange := {
  range_start : option string;
  range_end : option string
}.

Definition initialStats : Stats :=
  {| loaded := 0; unloaded := 0; balance := 0 |}.

(** [buckets.reduce(...)]: the pair is [(acc.loaded, acc.unloaded)]. *)
Definition sumBuckets (buckets : list Bucket) : Z * Z :=
  foldl (λ acc b, (acc.1 + orZero (carregados b),
                   acc.2 + orZero (descarregados b))) (0, 0) buckets.

Definition statsOfBuckets (buckets : list Bucket) : Stats :=
  let totals := sumBuckets buckets in
  {| loaded := totals.1;
     unloaded := totals.2;
     balance := totals.1 - totals.2 |}.

(** [hasData] of [fetchStats], also the test it applies to [prev]. *)
Definition hasData (s : Stats) : bool :=
  (0 <? loaded s) || (0 <? unloaded s).

(** The updater [fetchStats] hands to [setStats]. *)
Definition mergeFetched (prev newStats : Stats) : Stats :=
  if negb (hasData newStats) && hasData prev then prev else newStats.

(** [fetchStats]: [None] is a rejected request, [Some buckets] the
    buckets of the answer ([response.data?.data || []]). *)
Definition fetchStats (prev : Stats) (response : option (list Bucket))
  : Stats :=
  match response with
  | None => prev
  | Some buckets => mergeFetched prev (statsOfBuckets buckets)
  end.

(** [newStats.loaded || newStats.unloaded], as a boolean. *)
Definition hasLive (s : Stats) : bool :=
  truthy_Z (loaded s) || truthy_Z (unloaded s).

Definition sameStats (a b : Stats) : bool :=
  (loaded a =? loaded b) && (unloaded a =? unloaded b)
  && (balance a =? balance b).

(** The updater of the real-time effect. *)
Definition mergeLive (prev newStats : Stats) : Stats :=
  if negb (hasLive newStats) && hasLive prev then prev
  else if sameStats prev newStats then prev
  else newStats.

(** [timeRange && (timeRange.start || timeRange.end)]. *)
Definition has_range (timeRange : option TimeRange) : bool :=
  match timeRange with
  | Some r =>
      from_option truthy_string false (range_start r)
      || from_option truthy_string false (range_end r)
  | None => false
  end.

(** The real-time effect; [platformFilter] is ["all"] or a platform. *)
Definition applyRealtime (prev : Stats) (realtimeData : option RealtimeData)
    (platformFilter : string) (timeFilter : TimeFilter)
    (timeRange : option TimeRange) : Stats :=
  match realtimeData with
  | None => prev
  | Some rt =>
      if has_range timeRange then prev
      else
        match timeFilter with
        | hour | all =>
            if decide (platformFilter = "all") then
              let t := total rt in
              mergeLive prev
                {| loaded := orZero (t ≫= live_loaded);
                   unloaded := orZero (t ≫= live_unloaded);
                   balance := orZero (t ≫= live_balance) |}
            else
              match platforms rt ≫= (λ p, lookup_platform p platformFilter) with
              | Some platData =>
                  mergeLive prev
                    {| loaded := orZero (total_loaded platData);
                       unloaded := orZero (total_unloaded platData);
                       balance := orZero (total_loaded platData)
                                  - orZero (total_unloaded platData) |}
              | None => prev
              end
        | _ => prev
        end
  end.

(** *** The aggregation period of a request (also in the chart) *)

Section Endpoint.

(** [new Date(s).getTime()], with [None] for an invalid date (NaN). *)
Variable getTime : string → option Z.

Definition MS_PER_DAY : Z := 1000 * 60 * 60 * 24.

(** [Math.max(0, e - s)]; NaN when either date is invalid. *)
Definition diffMs (s e : string) : option Z :=
  match getTime s, getTime e with
  | Some ts, Some te => Some (Z.max 0 (te - ts))
  | _, _ => None
  end.

(** The period chosen from the length of a range; every comparison
    with NaN is false. *)
Definition periodOfDiff (d : option Z) : TimeFilter :=
  match d with
  | Some ms =>
      if ms <=? MS_PER_DAY then hour
      else if Qle_bool (inject_Z ms / inject_Z MS_PER_DAY) 7 then day
      else if Qle_bool (inject_Z ms / inject_Z MS_PER_DAY) 60 then week
      else month
  | None => month
  end.

(** A property of the range that is set and not the empty string. *)
Definition truthy_field (f : option string) : option string :=
  match f with
  | Some s => if truthy_string s then Some s else None
  | None => None
  end.

Definition is_custom (timeFilter : TimeFilter) : bool :=
  match timeFilter with custom => true | _ => false end.

Definition computeEndpoint (timeFilter : TimeFilter)
    (timeRange : option TimeRange) : TimeFilter :=
  let start := truthy_field (timeRange ≫= range_start) in
  let end_ := truthy_field (timeRange ≫= range_end) in
  if is_custom timeFilter && negb (bool_decide (is_Some start))
     && negb (bool_decide (is_Some end_))
  then day
  else
    match start, end_ with
    | Some s, Some e => periodOfDiff (diffMs s e)
    | Some _, None | None, Some _ => day
    | None, None =>
        match timeFilter with
        | all => month
        | f => f
        end
    end.

End Endpoint.

End KPICards.

(** *** Platform grid *)

Module PlatformGrid.

(** [hasCounts]: some platform of the payload has a non-zero total. *)
Definition hasCounts (platformsPayload : PlatformsPayload) : bool :=
  existsb (λ kv, match kv.2 with
                 | Some p => truthy_count (total_loaded p)
                             || truthy_count (total_unloaded p)
                 | None => false
                 end) platformsPayload.

(** [prev && Object.keys(prev).length > 0]. *)
Definition hasKeys (prev : PlatformsPayload) : bool :=
  (0 <? length prev)%nat.

(** The updater of the real-time effect. *)
Definition mergeRealtime (prev platformsPayload : PlatformsPayload)
  : PlatformsPayload :=
  if negb (hasCounts platformsPayload) && hasKeys prev then prev
  else platformsPayload.

(** The real-time effect on [platformStats]. *)
Definition applyRealtime (prev : PlatformsPayload)
    (realtimeData : option RealtimeData) : PlatformsPayload :=
  match realtimeData ≫= platforms with
  | None => prev
  | Some platformsPayload => mergeRealtime prev platformsPayload
  end.

(** [fetchAllStats]: [None] is a rejected request, [Some platforms] the
    [platforms] property of the answer; the state is assigned
    [response.data.platforms || {}]. *)
Definition fetchAllStats (prev : PlatformsPayload)
    (response : option (option PlatformsPayload)) : PlatformsPayload :=
  match response with
  | None => prev
  | Some platforms => default [] platforms
  end.

(** A card of the grid, as the [platforms] memo builds it. *)
Record Platform := {
  numericLoaded : Z;
  numericUnloaded : Z;
  zones : list (string * ZoneEntry)
}.

Definition mkPlatform (stats : option PlatformStats)
    (cachedZones : option (list (string * ZoneEntry))) : Platform :=
  {| numericLoaded := orZero (stats ≫= total_loaded);
     numericUnloaded := orZero (stats ≫= total_unloaded);
     zones :=
       match stats ≫= stat_zones with
       | Some (z :: zs) => z :: zs
       | _ => default [] cachedZones
       end |}.

Definition ZONE_DISPLAY_THRESHOLD : Q := 1 # 4.

Definition shouldShowZoneCount (zoneCount platformTotal : Z) : bool :=
  if negb (truthy_Z zoneCount) || (zoneCount <=? 0) then false
  else if negb (truthy_Z platformTotal) || (platformTotal <=? 0) then true
  else Qle_bool ZONE_DISPLAY_THRESHOLD
         (inject_Z zoneCount / inject_Z platformTotal).

(** The number a zone tile prints for a counter. *)
Definition displayedCount (zoneCount platformTotal : Z) : Z :=
  if shouldShowZoneCount zoneCount platformTotal then zoneCount else 0.

Fixpoint lookup_zone (zs : list (string * ZoneEntry)) (z : string)
  : option ZoneEntry :=
  match zs with
  | [] => None
  | (k, v) :: rest => if decide (k = z) then Some v else lookup_zone rest z
  end.

(** The two numbers of zone [z]'s tile on a platform card. *)
Definition displayedLoaded (platform : Platform) (z : string) : Z :=
  displayedCount (orZero (lookup_zone (zones platform) z ≫= zone_loaded))
                 (numericLoaded platform).

Definition displayedUnloaded (platform : Platform) (z : string) : Z :=
  displayedCount (orZero (lookup_zone (zones platform) z ≫= zone_unloaded))
                 (numericUnloaded platform).

End PlatformGrid.

End Dashboard.

(** ** Zone colours *)

Module Palette.

Definition DEFAULT_COLORS : list string :=
  ["rgba(34, 197, 94, 0.95)"; "rgba(245, 158, 11, 0.95)";
   "rgba(59, 130, 246, 0.95)"; "rgba(168, 85, 247, 0.95)";
   "rgba(236, 72, 153, 0.95)"; "rgba(14, 165, 233, 0.95)";
   "rgba(132, 204, 22, 0.95)"; "rgba(249, 115, 22, 0.95)"].

(** The loop of [zoneIndex]: [sum += name.charCodeAt(i)] over the
    characters (a name is a string of one-byte characters here). *)
Fixpoint charCodeSum (name : string) (sum : nat) : nat :=
  match name with
  | EmptyString => sum
  | String c rest => charCodeSum rest (sum + Ascii.nat_of_ascii c)
  end.

Definition zoneIndex (name : string) : nat :=
  charCodeSum name 0 `mod` length DEFAULT_COLORS.

(** [DEFAULT_COLORS[zoneIndex(name)]]. *)
Definition getZoneColor (name : string) : option string :=
  DEFAULT_COLORS !! zoneIndex name.

End Palette.

(** ** The normalisation as the specification words it *)

(** The two phases of 4.3, written over the payload alone: none of the
    loops of [Persistence] is used here.  A fixed name is matched exactly
    when the payload holds an entry under that very name; the entry is
    decoded as a zone when its [p1] and [p2] are 2-element arrays, and a
    malformed entry leaves the slot undefined (7, malformed remote zone
    data) without freeing it for another key. *)

Module TwoPhase.

(** Phase 1: the entry the payload holds under the fixed name itself
    ([null] and the other empty values are no entry). *)
Definition exactMatch (o : object) (name : string) : option json :=
  match get o name with
  | Some v => if truthy v then Some v else None
  | None => None
  end.

(** Remote keys that are no fixed name, in encounter order. *)
Definition unmatchedKeys (o : object) : list string :=
  filter (λ k, k ∉ FIXED_ZONE_NAMES) (keys o).

(** Fixed names still unassigned after phase 1, in their fixed order. *)
Definition freeSlots (o : object) : list string :=
  filter (λ n, exactMatch o n = None) FIXED_ZONE_NAMES.

(** Phase 2: the i-th unassigned name takes the i-th unmatched key. *)
Definition fallbackKey (o : object) (name : string) : option string :=
  (list_to_map (zip (freeSlots o) (unmatchedKeys o)) : gmap string string)
    !! name.

(** The zone of one fixed name: that of its exact match, else that of
    its fallback key, else none. *)
Definition normalizedSlot (o : object) (name : string) : option Zone :=
  match exactMatch o name with
  | Some v => decodeZone v
  | None => k ← fallbackKey o name; v ← get o k; decodeZone v
  end.

(** One entry for each fixed name, and no other. *)
Definition normalize_two_phase (data : option object) : Zones :=
  list_to_map
    ((λ n, (n, normalizedSlot (default [] data) n)) <$> FIXED_ZONE_NAMES).

End TwoPhase.

(** ** Sample values used to instantiate the statements *)

Module Samples.

Definition operator : option Permissions.User :=
  Some {| Permissions.role := Permissions.viewer;
          Permissions.page_permissions := Some ["dashboard"; "cameras"] |}.

Definition guest : option Permissions.User :=
  Some {| Permissions.role := Permissions.viewer;
          Permissions.page_permissions := Some ["dashboard"] |}.

(** A canvas shown at its native size in the page's corner. *)
Definition nativeRect : DOMRect :=
  {| rect_left := 0; rect_top := 0; rect_width := 1020; rect_height := 600 |}.

(** A canvas shown at 640x480, offset in the page. *)
Definition smallRect : DOMRect :=
  {| rect_left := 37 # 2; rect_top := 120;
     rect_width := 640; rect_height := 480 |}.

Definition clickAt (cx cy : Z) : MouseEvent :=
  {| clientX := inject_Z cx; clientY := inject_Z cy |}.

Definition segment (a b c d : Z) : json :=
  JObj [("p1", JArr [JNum (inject_Z a); JNum (inject_Z b)]);
        ("p2", JArr [JNum (inject_Z c); JNum (inject_Z d)])].

(** The zone set of the clear scenario. *)
Definition onlyA : Zones :=
  <["A" := Some (canon 0 0, canon 1 1)]>
    (<["B" := None]> (<["C" := None]> ∅)).

(** A payload with an entry under the fixed name B between two keys
    that are no fixed name. *)
Definition mixedPayload : object :=
  [("zone1", segment 1 1 2 2); ("B", segment 5 5 6 6);
   ("zone2", segment 7 7 8 8)].

(** A payload whose entry under A has a one-element [p1]. *)
Definition malformedA : object :=
  [("zone1", segment 1 1 2 2);
   ("A", JObj [("p1", JArr [JNum 1]); ("p2", JArr [JNum 2; JNum 2])])].


(** A real-time message whose total balance is not the difference of
    its two totals. *)
Definition skewedTotals : Dashboard.RealtimeData :=
  {| Dashboard.total :=
       Some {| Dashboard.live_loaded := Some 5%Z;
               Dashboard.live_unloaded := Some 2%Z;
               Dashboard.live_balance := Some 1%Z |};
     Dashboard.platforms := None |}.

(** Zone A just drawn and still selected. *)
Definition justDrawn : Editor.State :=
  {| Editor.zones := <["A" := Some (canon 10 10, canon 500 500)]> ∅;
     Editor.currentZone := Some "A";
     Editor.tempPoints := [canon 10 10; canon 500 500] |}.

End Samples.

(** ** The editor driven through its buttons *)

Module EditorUI.

Import Editor.

(** The zone buttons and trash icons exist for the fixed names only. *)
Definition uiOp (op : Op) : Prop :=
  match op with
  | OpSelectZone z | OpClearZone z _ _ => z ∈ FIXED_ZONE_NAMES
  | _ => True
  end.

Section Reachable.

Variable user : option Permissions.User.
Variable platform : string.

(** The states reached when zones are named through the buttons. *)
Inductive reachableUI : State → Prop :=
| reachableUI_initial : reachableUI initial
| reachableUI_step st op :
    reachableUI st → uiOp op → reachableUI (step user platform st op).1.

End Reachable.

(** The notifications among the effects of a handler. *)
Definition dispatches (effects : list Effect)
  : list (string * (Zones + object)) :=
  omap (λ e, match e with
             | DispatchZonesUpdated p d => Some (p, d)
             | _ => None
             end) effects.

(** The request bodies among the effects of a handler. *)
Definition posts (effects : list Effect) : list object :=
  omap (λ e, match e with Post _ data => Some data | _ => None end) effects.

(** Whether an event is a request chain that went through. *)
Definition succeeded (op : Op) : bool :=
  match op with
  | OpClearAllResume true (Body _) | OpSaveResume true (Body _) => true
  | _ => false
  end.

End EditorUI.

(** ** The platform grid's zone cache and tile filter *)

Module GridCache.

(** [v[k]] for a property name that is neither an index nor built in. *)
Definition field (v : json) (k : string) : option json :=
  match v with
  | JObj fields => get fields k
  | _ => None
  end.

(** The filter of [validZoneKeys]: the zone is there, not [null], and
    has counters or coordinates. *)
Definition isValidZone (pZones : object) (z : string) : bool :=
  match get pZones z with
  | None | Some JNull => false
  | Some v =>
      bool_decide (is_Some (field v "loaded"))
      || bool_decide (is_Some (field v "unloaded"))
      || bool_decide (is_Some (field v "p1"))
  end.

Definition validZoneKeys (pZones : object) : list string :=
  filter (λ z, isValidZone pZones z = true) ["A"; "B"; "C"].

(** The editor's zone values as JavaScript values: a zone is an array
    of two [{x, y}] objects. *)
Definition jsPoint (p : Point) : json := JObj [("x", x p); ("y", y p)].

Definition jsSlot (slot : option Zone) : json :=
  match slot with
  | Some (p1, p2) => JArr [jsPoint p1; jsPoint p2]
  | None => JNull
  end.

(** The object [reloaded] a save or clear-all dispatches: the reload
    loop gives it one property per fixed name, in the fixed order. *)
Definition jsReloaded (zs : Zones) : object :=
  omap (λ n, (λ slot, (n, jsSlot slot)) <$> zs !! n) FIXED_ZONE_NAMES.

(** [detail.zones] of a notification sent by the editor. *)
Definition detailZones (detail : Zones + object) : object :=
  match detail with
  | inl reloaded => jsReloaded reloaded
  | inr data => data
  end.

(** The grid's [zones:updated] listener.  [zones] is [detail.zones];
    without it the zones are fetched, for a platform among [cameraIds]
    only, and [fetched] is the answer ([None]: the request failed). *)
Definition onZonesUpdated (cache : gmap string object)
    (cameraIds : list string) (platId : string)
    (zones : option (Zones + object)) (fetched : option (option object))
  : gmap string object :=
  if negb (truthy_string platId) then cache
  else
    match zones with
    | Some detail => <[platId := detailZones detail]> cache
    | None =>
        if includes cameraIds platId then
          match fetched with
          | Some data => <[platId := default [] data]> cache
          | None => cache
          end
        else cache
    end.

(** The cache clean-up when the camera list changes. *)
Definition cleanCache (cache : gmap string object)
    (cameraIds : list string) : gmap string object :=
  filter (λ kv, kv.1 ∈ cameraIds) cache.

(** [platform.zones] of a card: the zones of the statistics when they
    have any, else the cached ones, else the empty object. *)
Definition tileZones (statsZones : option object)
    (cache : gmap string object) (id : string) : object :=
  match statsZones with
  | Some (z :: zs) => z :: zs
  | _ => default [] (cache !! id)
  end.

(** The grid's cache after the notifications of one editor handler. *)
Definition notifyGrid (cache : gmap string object)
    (cameraIds : list string) (effects : list Editor.Effect)
  : gmap string object :=
  foldl (λ c pd, onZonesUpdated c cameraIds pd.1 (Some pd.2) None) cache
        (EditorUI.dispatches effects).

End GridCache.

(** ** The time-series chart *)

Module Charts.

Import Dashboard.

Record ChartPoint := {
  time : string;
  carregados : Z;
  descarregados : Z
}.

(** One series of the hourly block; [None] is a value that is no
    array. *)
Record Series := {
  loaded : option (list Z);
  unloaded : option (list Z)
}.

Record Hourly := {
  labels : list string;
  total : option Series;
  platforms : option (list (string * option Series))
}.

Fixpoint lookup_series (p : list (string * option Series)) (k : string)
  : option Series :=
  match p with
  | [] => None
  | (k', v) :: rest => if decide (k' = k) then v else lookup_series rest k
  end.

(** The updater [fetchChartData] hands to [setData]. *)
Definition mergeFetched (prev newData : list ChartPoint) : list ChartPoint :=
  if (length newData =? 0)%nat && (0 <? length prev)%nat then prev
  else newData.

(** [fetchChartData]: [None] is a rejected request, [Some d] the
    answer's [data] property. *)
Definition fetchChartData (prev : list ChartPoint)
    (response : option (option (list ChartPoint))) : list ChartPoint :=
  match response with
  | None => prev
  | Some d => mergeFetched prev (default [] d)
  end.

(** [labels.map(...)]: one point per label, a missing value is 0. *)
Definition realTimeData (labels : list string) (l u : list Z)
  : list ChartPoint :=
  imap (λ index label,
          {| time := label;
             carregados := default 0%Z (l !! index);
             descarregados := default 0%Z (u !! index) |}) labels.

Definition hasLiveValues (points : list ChartPoint) : bool :=
  existsb (λ d, truthy_Z (carregados d) || truthy_Z (descarregados d))
          points.

(** The real-time effect of the chart; [hourly] is
    [socketData?.hourly]. *)
Definition applyRealtime (data : list ChartPoint) (hourly : option Hourly)
    (isConnected : bool) (timeFilter : KPICards.TimeFilter)
    (timeRange : option KPICards.TimeRange) (platformFilter : string)
  : list ChartPoint :=
  match hourly with
  | None => data
  | Some h =>
      if negb isConnected then data
      else if KPICards.has_range timeRange then data
      else
        match timeFilter with
        | KPICards.all | KPICards.hour =>
            let source :=
              if decide (platformFilter = "all") then total h
              else platforms h ≫= (λ p, lookup_series p platformFilter) in
            match source with
            | Some {| loaded := Some l; unloaded := Some u |} =>
                let points := realTimeData (labels h) l u in
                if negb (hasLiveValues points) && (0 <? length data)%nat
                then data
                else points
            | _ => data
            end
        | _ => data
        end
  end.

End Charts.

(** ** Notions used to state properties *)

Module Notions.

(** The slot a remote entry under its own name decodes to. *)
Definition slotOf (data : option object) (n : string) : option Zone :=
  match remoteEntry data n with
  | Some v => if truthy v then decodeZone v else None
  | None => None
  end.


(** The balance shown is the difference of the two totals shown. *)
Definition balanced (s : Dashboard.KPICards.Stats) : Prop :=
  Dashboard.KPICards.balance s
  = (Dashboard.KPICards.loaded s - Dashboard.KPICards.unloaded s)%Z.

(** How coarse an aggregation period is. *)
Definition periodRank (p : Dashboard.KPICards.TimeFilter) : nat :=
  match p with
  | Dashboard.KPICards.hour => 0
  | Dashboard.KPICards.day => 1
  | Dashboard.KPICards.week => 2
  | _ => 3
  end.

End Notions.

(** * Properties *)

Local Open Scope nat_scope.
Set Warnings "-clear-no-such-hyp".

(** ** Facts about the persistence bridge *)



Section FillLoop.

Import TwoPhase.

(** The fixed names are pairwise distinct. *)
Lemma NoDup_FIXED_ZONE_NAMES : NoDup FIXED_ZONE_NAMES.
Proof. compute_done. Qed.

(** The inner loop only moves the index forward. *)
Lemma skipAssigned_ge (m : Zones) names i : i ≤ skipAssigned m names i.
Proof.
  revert i. induction names as [|n names IH]; intros i; simpl; [lia|].
  destruct (m !! n); [|lia]. specialize (IH (S i)). lia.
Qed.

(** Where the inner loop stops: at the first unassigned name, if any. *)
Lemma skipAssigned_stop (m : Zones) names i :
  match names !! (skipAssigned m names i - i) with
  | Some n =>
      m !! n = None ∧
      filter (λ n, m !! n = None) names =
        n :: filter (λ n, m !! n = None)
               (drop (S (skipAssigned m names i - i)) names)
  | None => filter (λ n, m !! n = None) names = []
  end.
Proof.
  revert i. induction names as [|n names IH]; intros i; simpl.
  - done.
  - destruct (m !! n) as [v|] eqn:Hn.
    + pose proof (skipAssigned_ge m names (S i)) as Hge.
      replace (skipAssigned m names (S i) - i) with
        (S (skipAssigned m names (S i) - S i)) by lia.
      simpl. specialize (IH (S i)).
      rewrite filter_cons_False by (rewrite Hn; done).
      exact IH.
    + replace (i - i) with 0 by lia. simpl. split; [done|].
      rewrite filter_cons_True by done. by rewrite drop_0.
Qed.

(** The same, for the index into [FIXED_ZONE_NAMES]. *)
Lemma advance_stop (m : Zones) fi :
  match FIXED_ZONE_NAMES !! advance m fi with
  | Some n =>
      m !! n = None ∧
      filter (λ n, m !! n = None) (drop fi FIXED_ZONE_NAMES) =
        n :: filter (λ n, m !! n = None)
               (drop (S (advance m fi)) FIXED_ZONE_NAMES)
  | None => filter (λ n, m !! n = None) (drop fi FIXED_ZONE_NAMES) = []
  end.
Proof.
  pose proof (skipAssigned_stop m (drop fi FIXED_ZONE_NAMES) fi) as H.
  pose proof (skipAssigned_ge m (drop fi FIXED_ZONE_NAMES) fi) as Hge.
  fold (advance m fi) in H, Hge.
  rewrite lookup_drop in H.
  replace (fi + (advance m fi - fi)) with (advance m fi) in H by lia.
  rewrite drop_drop in H.
  replace (fi + S (advance m fi - fi)) with (S (advance m fi)) in H by lia.
  exact H.
Qed.

(** Filling slot [i] does not change which later slots are free. *)
Lemma filter_unassigned_insert (m : Zones) i n v :
  FIXED_ZONE_NAMES !! i = Some n →
  filter (λ k, <[n := v]> m !! k = None) (drop (S i) FIXED_ZONE_NAMES) =
  filter (λ k, m !! k = None) (drop (S i) FIXED_ZONE_NAMES).
Proof.
  intros Hi.
  assert (n ∉ drop (S i) FIXED_ZONE_NAMES) as Hnotin.
  { intros [j Hj]%list_elem_of_lookup_1. rewrite lookup_drop in Hj.
    pose proof (NoDup_lookup _ _ _ _ NoDup_FIXED_ZONE_NAMES Hi Hj). lia. }
  induction (drop (S i) FIXED_ZONE_NAMES) as [|k l IH]; [done|].
  apply not_elem_of_cons in Hnotin as [Hne Hl].
  rewrite !filter_cons, lookup_insert_ne by done.
  rewrite IH by done. done.
Qed.

(** The index-driven loop pairs free slots with unmatched keys, both in
    order. *)
Lemma fillRemaining_zip o ks fi (m : Zones) :
  fillRemaining o ks fi m =
  foldl (λ acc sk, <[sk.1 := get o sk.2 ≫= decodeZone]> acc) m
    (zip (filter (λ n, m !! n = None) (drop fi FIXED_ZONE_NAMES))
         (filter (λ k, k ∉ FIXED_ZONE_NAMES) ks)).
Proof.
  revert fi m. induction ks as [|k ks IH]; intros fi m; cbn [fillRemaining].
  - by rewrite filter_nil, zip_nil_r.
  - unfold includes. case_bool_decide as Hk.
    + rewrite filter_cons_False by (intros Hn; by apply Hn). apply IH.
    + rewrite filter_cons_True by done.
      pose proof (advance_stop m fi) as Hstop.
      destruct (FIXED_ZONE_NAMES !! advance m fi) as [slot|] eqn:Hslot.
      * destruct Hstop as [_ ->]. simpl. rewrite IH.
        by rewrite (filter_unassigned_insert _ _ _ _ Hslot).
      * by rewrite Hstop.
Qed.

(** The source's normalisation, with its index-driven loop as a zip. *)
Lemma normalizeZones_zip data :
  normalizeZones data =
  ensureFixed
    (foldl (λ acc sk, <[sk.1 := get (default [] data) sk.2 ≫= decodeZone]> acc)
       (directMatches data)
       (zip (filter (λ n, directMatches data !! n = None) FIXED_ZONE_NAMES)
            (filter (λ k, k ∉ FIXED_ZONE_NAMES) (keys (default [] data))))).
Proof.
  unfold normalizeZones. by rewrite fillRemaining_zip, drop_0.
Qed.

(** Exact matches [e], then the free slots zipped with the unmatched
    keys [rest], then [null]: slot by slot, that is the exact match if
    there is one and else the key paired with the slot.  By cases on the
    three exact matches and on the first three unmatched keys. *)
Lemma two_phase_slots (e : string → option (option Zone))
    (f : string → option Zone) (rest : list string) :
  let m0 : Zones :=
    foldl (λ m n, match e n with Some z => <[n := z]> m | None => m end)
      ∅ FIXED_ZONE_NAMES in
  ensureFixed
    (foldl (λ acc sk, <[sk.1 := f sk.2]> acc) m0
       (zip (filter (λ n, m0 !! n = None) FIXED_ZONE_NAMES) rest))
  = list_to_map
      ((λ n, (n, match e n with
                 | Some z => z
                 | None =>
                     (list_to_map
                        (zip (filter (λ n, e n = None) FIXED_ZONE_NAMES) rest)
                      : gmap string string) !! n ≫= f
                 end)) <$> FIXED_ZONE_NAMES).
Proof.
  unfold FIXED_ZONE_NAMES. cbn [foldl fmap list_fmap filter list_filter].
  destruct (e "A") as [za|], (e "B") as [zb|], (e "C") as [zc|];
    destruct rest as [|k1 [|k2 [|k3 rest']]];
    vm_compute; reflexivity.
Qed.

(** The three loops of the source compute the two phases of the
    specification. *)
Lemma normalizeZones_two_phase data :
  normalizeZones data = normalize_two_phase data.
Proof.
  rewrite normalizeZones_zip.
  assert (∀ (m : Zones) n,
    directMatch data m n =
    match decodeZone <$> exactMatch (default [] data) n with
    | Some z => <[n := z]> m
    | None => m
    end) as Hd.
  { intros m n. unfold directMatch, exactMatch, remoteEntry.
    destruct data as [o|]; cbv [from_option id].
    - destruct (get o n) as [v|]; [|reflexivity]. by destruct (truthy v).
    - reflexivity. }
  set (o := default [] data) in *.
  assert (directMatches data =
    foldl (λ m n, match decodeZone <$> exactMatch o n with
                  | Some z => <[n := z]> m
                  | None => m
                  end) ∅ FIXED_ZONE_NAMES) as ->.
  { unfold directMatches, FIXED_ZONE_NAMES. cbn [foldl]. by rewrite !Hd. }
  fold (unmatchedKeys o).
  rewrite (two_phase_slots (λ n, decodeZone <$> exactMatch o n)
             (λ k, get o k ≫= decodeZone) (unmatchedKeys o)).
  unfold normalize_two_phase, normalizedSlot, fallbackKey, freeSlots.
  fold o. f_equal.
  assert (∀ n, (decodeZone <$> exactMatch o n = None) ↔ exactMatch o n = None)
    as Hnone.
  { intros n. by destruct (exactMatch o n). }
  rewrite (list_filter_iff _ (λ n, exactMatch o n = None) _ Hnone).
  apply list_fmap_ext. intros _ n _. f_equal.
  by destruct (exactMatch o n).
Qed.

End FillLoop.

(** ** Domains, lookups and serialisation *)

Section SlotFacts.
Import TwoPhase.


(** Each loop of the normalisation writes fixed names only. *)
Lemma directMatches_dom data : dom (directMatches data) ⊆ fixedNames.
Proof.
  unfold directMatches, fixedNames.
  assert (∀ names (m : Zones),
    dom (foldl (directMatch data) m names) ⊆ dom m ∪ list_to_set names) as H.
  { induction names as [|n names IH]; intros m; simpl; [set_solver|].
    etrans; [apply IH|]. unfold directMatch.
    destruct (remoteEntry data n) as [v|]; [destruct (truthy v)|];
      rewrite ?dom_insert_L; set_solver. }
  etrans; [apply H|]. set_solver.
Qed.

Lemma fillRemaining_dom o ks fi (m : Zones) :
  dom (fillRemaining o ks fi m) ⊆ dom m ∪ fixedNames.
Proof.
  revert fi m. induction ks as [|k ks IH]; intros fi m; cbn [fillRemaining].
  - set_solver.
  - destruct (includes FIXED_ZONE_NAMES k); [apply IH|].
    destruct (FIXED_ZONE_NAMES !! advance m fi) as [slot|] eqn:Hslot;
      [|set_solver].
    etrans; [apply IH|]. rewrite dom_insert_L.
    apply list_elem_of_lookup_2 in Hslot.
    assert (slot ∈ fixedNames) by (unfold fixedNames; set_solver).
    set_solver.
Qed.

(** The last loop adds every fixed name. *)
Lemma ensureFixed_dom (m : Zones) : dom (ensureFixed m) = dom m ∪ fixedNames.
Proof.
  unfold ensureFixed, fixedNames. revert m.
  induction FIXED_ZONE_NAMES as [|n names IH]; intros m; simpl; [set_solver|].
  rewrite IH. destruct (m !! n) as [v|] eqn:Hn.
  - apply (elem_of_dom_2 m) in Hn. set_solver.
  - rewrite dom_insert_L. set_solver.
Qed.

Lemma normalizeZones_dom data : dom (normalizeZones data) = fixedNames.
Proof.
  unfold normalizeZones. rewrite ensureFixed_dom.
  pose proof (fillRemaining_dom (default [] data) (keys (default [] data)) 0
                (directMatches data)).
  pose proof (directMatches_dom data). set_solver.
Qed.

(** The fallback fill never overwrites an assigned slot. *)
Lemma fillRemaining_assigned o ks fi (m : Zones) n :
  is_Some (m !! n) → fillRemaining o ks fi m !! n = m !! n.
Proof.
  revert fi m. induction ks as [|k ks IH]; intros fi m Hn; cbn [fillRemaining].
  - done.
  - destruct (includes FIXED_ZONE_NAMES k); [by apply IH|].
    pose proof (advance_stop m fi) as Hstop.
    destruct (FIXED_ZONE_NAMES !! advance m fi) as [slot|]; [|done].
    destruct Hstop as [Hfree _].
    assert (slot ≠ n) by (intros ->; rewrite Hfree in Hn; by destruct Hn).
    rewrite IH; rewrite lookup_insert_ne by done; done.
Qed.

Lemma ensureFixed_assigned (m : Zones) n :
  is_Some (m !! n) → ensureFixed m !! n = m !! n.
Proof.
  unfold ensureFixed. revert m.
  induction FIXED_ZONE_NAMES as [|k names IH]; intros m Hn; simpl; [done|].
  destruct (m !! k) as [v|] eqn:Hk; [by apply IH|].
  assert (k ≠ n) by (intros ->; rewrite Hk in Hn; by destruct Hn).
  rewrite IH; rewrite lookup_insert_ne by done; done.
Qed.

(** A truthy entry under a fixed name is decoded into its own slot. *)
Lemma directMatches_lookup data n v :
  n ∈ FIXED_ZONE_NAMES → remoteEntry data n = Some v → truthy v = true →
  directMatches data !! n = Some (decodeZone v).
Proof.
  intros Hn Hv Ht. unfold directMatches, FIXED_ZONE_NAMES in *. simpl.
  assert (∀ (m : Zones), directMatch data m n = <[n := decodeZone v]> m) as Hd.
  { intros m. unfold directMatch. by rewrite Hv, Ht. }
  assert (∀ (m : Zones) k, k ≠ n → is_Some (m !! n) →
            directMatch data m k !! n = m !! n) as Hk.
  { intros m k Hne Hs. unfold directMatch.
    destruct (remoteEntry data k) as [w|]; [destruct (truthy w)|];
      rewrite ?lookup_insert_ne; done. }
  assert (∀ (m : Zones) k, m !! n = Some (decodeZone v) →
            directMatch data m k !! n = Some (decodeZone v)) as Hkeep.
  { intros m k Hm. destruct (decide (k = n)) as [->|Hne].
    - by rewrite Hd, lookup_insert_eq.
    - rewrite Hk; [done|done|by rewrite Hm]. }
  apply elem_of_cons in Hn as [->|Hn].
  { do 2 apply Hkeep. by rewrite Hd, lookup_insert_eq. }
  apply elem_of_cons in Hn as [->|Hn].
  { apply Hkeep. by rewrite Hd, lookup_insert_eq. }
  apply elem_of_cons in Hn as [->|Hn]; [|by apply elem_of_nil in Hn].
  by rewrite Hd, lookup_insert_eq.
Qed.

(** Reading a name back from the serialised object. *)
Lemma get_serializeZones_aux (zs : Zones) names n :
  get (omap (λ z, match zs !! z with
                  | Some (Some zone) => Some (z, encodeZone zone)
                  | _ => None
                  end) names) n =
  if decide (n ∈ names)
  then match zs !! n with
       | Some (Some zone) => Some (encodeZone zone)
       | _ => None
       end
  else None.
Proof.
  induction names as [|k names IH].
  - simpl. destruct (decide (n ∈ [])) as [H|]; [by apply elem_of_nil in H|done].
  - cbn [omap list_omap]. destruct (decide (k = n)) as [->|Hne].
    + rewrite (decide_True (P := n ∈ n :: names)) by set_solver.
      destruct (zs !! n) as [[zone|]|] eqn:Hz; cbn [get].
      * by rewrite decide_True.
      * rewrite IH. destruct (decide (n ∈ names)); by rewrite ?Hz.
      * rewrite IH. destruct (decide (n ∈ names)); by rewrite ?Hz.
    + transitivity (get (omap (λ z, match zs !! z with
                  | Some (Some zone) => Some (z, encodeZone zone)
                  | _ => None
                  end) names) n).
      { destruct (zs !! k) as [[zone|]|]; cbn [get]; [|done|done].
        by rewrite decide_False. }
      rewrite IH.
      destruct (decide (n ∈ names)), (decide (n ∈ k :: names)); set_solver.
Qed.

End SlotFacts.

(** ** Loading and saving *)

Import Editor Samples TwoPhase.

(** A name has no entry exactly when it is no key of the payload. *)
Lemma get_None_keys (o : object) k : get o k = None ↔ k ∉ keys o.
Proof.
  induction o as [|[k' v] o IH]; cbn [get keys map fst].
  - split; [intros _; apply not_elem_of_nil|done].
  - rewrite not_elem_of_cons. destruct (decide (k' = k)) as [->|Hne].
    + split; [done|]. by intros [? _].
    + rewrite IH. unfold keys. split; [|tauto]. intros ?; split; [congruence|done].
Qed.

(** A filter every element passes changes nothing. *)
Lemma filter_keeps_all {A} (P : A → Prop) `{∀ x, Decision (P x)} (l : list A) :
  (∀ x, x ∈ l → P x) → filter P l = l.
Proof.
  induction l as [|a l IH]; intros Hall; [done|].
  rewrite filter_cons_True by (apply Hall; left).
  f_equal. apply IH. intros x Hx. apply Hall. by right.
Qed.

(** The two-phase normalisation, read at a fixed name. *)
Lemma normalize_two_phase_lookup data n :
  n ∈ FIXED_ZONE_NAMES →
  normalize_two_phase data !! n = Some (normalizedSlot (default [] data) n).
Proof.
  intros Hn. unfold normalize_two_phase.
  apply elem_of_list_to_map_1.
  - rewrite <- list_fmap_compose. unfold FIXED_ZONE_NAMES.
    cbn [fmap list_fmap compose fst]. apply NoDup_FIXED_ZONE_NAMES.
  - apply (list_elem_of_fmap_2 (λ n, (n, normalizedSlot (default [] data) n))). done.
Qed.

(** C3: [loadInitialData] normalises a remote payload in two phases,
    stated on the payload itself.  Exact match first: a fixed name under
    which the payload holds an entry takes the decoding of that very
    entry, whatever the other keys and their order.  Then the keys that
    are no fixed name fill, in encounter order, the fixed names still
    unassigned; with no fixed-name key at all, the i-th fixed name takes
    the payload's i-th key.  What is left is [null].  So
    [{zone1: {p1: [1,1], p2: [2,2]}}] loads as A = ((1,1),(2,2)), B and C
    not configured; [{zone1, B, zone2}] loads as A = zone1, B = B,
    C = zone2; and an entry under A with a malformed [p1] leaves A not
    configured while zone1 goes to B. *)
Theorem load_normalizes_in_two_phases :
  (∀ st data,
     zones (loadInitialData st (Body data)) = normalize_two_phase data)
  ∧ (∀ st o n v,
       n ∈ FIXED_ZONE_NAMES → get o n = Some v → truthy v = true →
       zones (loadInitialData st (Body (Some o))) !! n = Some (decodeZone v))
  ∧ (∀ st o i n,
       (∀ m, m ∈ FIXED_ZONE_NAMES → get o m = None) →
       FIXED_ZONE_NAMES !! i = Some n →
       zones (loadInitialData st (Body (Some o))) !! n
       = Some (k ← keys o !! i; v ← get o k; decodeZone v))
  ∧ (∀ st,
       zones (loadInitialData st (Body (Some [("zone1", segment 1 1 2 2)])))
       = <["A" := Some (canon 1 1, canon 2 2)]>
           (<["B" := None]> (<["C" := None]> ∅)))
  ∧ (∀ st,
       zones (loadInitialData st (Body (Some mixedPayload)))
       = <["A" := Some (canon 1 1, canon 2 2)]>
           (<["B" := Some (canon 5 5, canon 6 6)]>
              (<["C" := Some (canon 7 7, canon 8 8)]> ∅)))
  ∧ (∀ st,
       zones (loadInitialData st (Body (Some malformedA)))
       = <["A" := None]>
           (<["B" := Some (canon 1 1, canon 2 2)]> (<["C" := None]> ∅))).
Proof.
  split; [|split; [|split; [|split; [|split]]]].
  - intros st data. apply normalizeZones_two_phase.
  - intros st o n v Hn Hv Ht. cbn [loadInitialData zones].
    rewrite normalizeZones_two_phase, normalize_two_phase_lookup by done.
    cbv [from_option id]. unfold normalizedSlot, exactMatch.
    by rewrite Hv, Ht.
  - intros st o i n Hnone Hi. cbn [loadInitialData zones].
    assert (n ∈ FIXED_ZONE_NAMES) as Hn by (by eapply list_elem_of_lookup_2).
    rewrite normalizeZones_two_phase, normalize_two_phase_lookup by done.
    cbv [from_option id]. unfold normalizedSlot.
    assert (∀ m, m ∈ FIXED_ZONE_NAMES → exactMatch o m = None) as Hex.
    { intros m Hm. unfold exactMatch. by rewrite Hnone. }
    rewrite Hex by done. f_equal.
    unfold fallbackKey, freeSlots, unmatchedKeys.
    rewrite (filter_keeps_all _ FIXED_ZONE_NAMES) by done.
    rewrite (filter_keeps_all _ (keys o)).
    2:{ intros k Hk Hfix. apply Hnone in Hfix. by apply get_None_keys in Hfix. }
    f_equal. unfold FIXED_ZONE_NAMES in *.
    destruct i as [|[|[|i]]]; [| | |done]; injection Hi as <-;
      destruct (keys o) as [|k1 [|k2 [|k3 ks]]]; vm_compute; reflexivity.
  - intros st. cbn [loadInitialData zones]. vm_compute. reflexivity.
  - intros st. cbn [loadInitialData zones]. vm_compute. reflexivity.
  - intros st. cbn [loadInitialData zones]. vm_compute. reflexivity.
Qed.

Lemma load_normalizes_in_two_phases_witness :
  zones (loadInitialData initial
           (Body (Some [("zone1", segment 3 3 4 4); ("A", segment 1 1 2 2)])))
  !! "A" = Some (Some (canon 1 1, canon 2 2)).
Proof.
  apply (proj1 (proj2 load_normalizes_in_two_phases) initial
           [("zone1", segment 3 3 4 4); ("A", segment 1 1 2 2)]
           "A" (segment 1 1 2 2)).
  - unfold FIXED_ZONE_NAMES. set_solver.
  - reflexivity.
  - reflexivity.
Defined.
(** C4: the posted body holds exactly the fixed names whose zone is
    defined, each as the object [{p1: [x,y], p2: [x,y]}] of its two
    points, and nothing for a zone that is not defined; [handleSave]
    posts that body: with only A defined, as ((0,0),(1,1)), the body is
    [{A: {p1: [0,0], p2: [1,1]}}].  From a zone set in which no zone but
    A is defined, clearing A posts the empty object and so does the save
    that follows; the backend, which keeps the posted body as the
    platform's zones, then has no zone left for the platform. *)
Theorem save_serializes_defined_fixed_zones :
  (∀ (zs : Zones) n j,
     get (serializeZones zs) n = Some j ↔
     n ∈ FIXED_ZONE_NAMES ∧
     ∃ p1 p2, zs !! n = Some (Some (p1, p2)) ∧
       j = JObj [("p1", JArr [x p1; y p1]); ("p2", JArr [x p2; y p2])])
  ∧ (∀ platform st,
       (handleSave platform st).2
       = [Post platform (serializeZones (zones st))])
  ∧ (∀ platform st,
       zones st = onlyA →
       (handleSave platform st).2
       = [Post platform
            [("A", JObj [("p1", JArr [JNum 0; JNum 0]);
                         ("p2", JArr [JNum 1; JNum 1])])]])
  ∧ (∀ user platform st posted,
       canEditZones user = true →
       (∀ n zone, n ≠ "A" → zones st !! n ≠ Some (Some zone)) →
       let cleared := (clearZone user platform st "A" true posted).1 in
       zones cleared !! "A" = Some None
       ∧ EditorUI.posts (clearZone user platform st "A" true posted).2 = [[]]
       ∧ (handleSave platform cleared).2 = [Post platform []]
       ∧ ∀ store,
           Backend.get_zones
             (Backend.afterEffects store (handleSave platform cleared).2)
             platform = []).
Proof.
  split; [|split; [|split]].
  - intros zs n j. unfold serializeZones. rewrite get_serializeZones_aux.
    destruct (decide (n ∈ FIXED_ZONE_NAMES)) as [Hn|Hn].
    + destruct (zs !! n) as [[[p1 p2]|]|]; split.
      * intros [= <-]. split; [done|]. by exists p1, p2.
      * intros (_ & q1 & q2 & [= -> ->] & ->). done.
      * done.
      * intros (_ & q1 & q2 & [=] & _).
      * done.
      * intros (_ & q1 & q2 & [=] & _).
    + split; [done|]. intros [? _]. done.
  - done.
  - intros platform st Hst. cbn [handleSave snd]. rewrite Hst.
    vm_compute. reflexivity.
  - intros user platform st posted Hedit Hrest.
    assert (serializeZones (<["A" := None]> (zones st)) = []) as Hbody.
    { unfold serializeZones, FIXED_ZONE_NAMES. cbn [omap list_omap].
      rewrite lookup_insert_eq, !lookup_insert_ne by done.
      destruct (zones st !! "B") as [[zb|]|] eqn:HB;
        [by apply Hrest in HB| |];
        (destruct (zones st !! "C") as [[zc|]|] eqn:HC;
           [by apply Hrest in HC|done|done]). }
    unfold clearZone. rewrite Hedit.
    cbn [negb fst zones handleSave snd]. rewrite Hbody.
    split; [apply lookup_insert_eq|].
    split; [by destruct posted|].
    split; [done|].
    intros store. cbn [Backend.afterEffects foldl].
    unfold Backend.get_zones, Backend.set_zones.
    by rewrite lookup_insert_eq.
Qed.

Lemma save_serializes_defined_fixed_zones_witness :
  canEditZones operator = true
  ∧ (handleSave "platform1"
       (clearZone operator "platform1"
          {| zones := onlyA; currentZone := None; tempPoints := [] |}
          "A" true true).1).2 = [Post "platform1" []].
Proof.
  split; [reflexivity|].
  apply (proj2 (proj2 (proj2 save_serializes_defined_fixed_zones))
           operator "platform1"
           {| zones := onlyA; currentZone := None; tempPoints := [] |} true);
    [reflexivity|].
  intros n zone Hn. cbn [zones]. unfold onlyA.
  rewrite lookup_insert_ne by done.
  destruct (decide (n = "B")) as [->|HB]; [by rewrite lookup_insert_eq|].
  rewrite lookup_insert_ne by done.
  destruct (decide (n = "C")) as [->|HC]; [by rewrite lookup_insert_eq|].
  by rewrite lookup_insert_ne, lookup_empty.
Defined.

(** ** The editor's state machine *)

Section EditorFacts.

Variable user : option Permissions.User.
Variable platform : string.

(** A click either leaves the state alone or appends one point to a
    list that held fewer than two. *)
Lemma handleCanvasClick_cases st rect e :
  handleCanvasClick user st rect e = st
  ∨ (length (tempPoints st) < 2
     ∧ ∃ p, tempPoints (handleCanvasClick user st rect e)
            = tempPoints st ++ [p]).
Proof.
  unfold handleCanvasClick.
  destruct (negb (canEditZones user) || negb (hasCurrentZone st));
    cbn [orb]; [by left|].
  destruct (2 <=? length (tempPoints st)) eqn:Hlen; [by left|].
  apply Nat.leb_gt in Hlen.
  destruct rect as [r|], (currentZone st) as [z|]; try by left.
  right. split; [done|]. eexists. reflexivity.
Qed.

(** The reload after a post touches the zones only. *)
Lemma afterPost_tempPoints st posted zonesRes failure andThen :
  tempPoints (afterPost platform st posted zonesRes failure andThen).1
  = tempPoints st.
Proof. unfold afterPost. by destruct posted, zonesRes. Qed.

Lemma clearZone_tempPoints st z confirmed posted :
  tempPoints (clearZone user platform st z confirmed posted).1
  = tempPoints st.
Proof.
  unfold clearZone. by destruct (negb (canEditZones user)), (negb confirmed).
Qed.

(** Every event preserves the bound on the transient points. *)
Lemma step_tempPoints_bound st op :
  length (tempPoints st) ≤ 2 →
  length (tempPoints (step user platform st op).1) ≤ 2.
Proof.
  intros Hst. destruct op as [r|z|rect e|z c p|c|p r| |p r| ]; cbn [step fst].
  - by destruct r.
  - unfold selectZone. destruct (negb (canEditZones user)); simpl; lia.
  - destruct (handleCanvasClick_cases st rect e) as [->|[Hlt [pt ->]]];
      [done|]. rewrite length_app. simpl. lia.
  - by rewrite clearZone_tempPoints.
  - unfold clearAll. destruct (negb c); simpl; lia.
  - unfold clearAll_resume. by rewrite afterPost_tempPoints.
  - done.
  - unfold handleSave_resume. by rewrite afterPost_tempPoints.
  - done.
Qed.

Lemma reachable_tempPoints_bound st :
  reachable user platform st → length (tempPoints st) ≤ 2.
Proof.
  induction 1 as [|st op _ IH]; [simpl; lia|].
  by apply step_tempPoints_bound.
Qed.

End EditorFacts.

(** C1: from the idle state with no transient point, selecting zone A
    and clicking (10,10) then (500,500) stores that segment under A and
    leaves the two points in the transient list; a click while two
    transient points are held, or while no zone is selected, changes
    nothing. *)
Theorem two_point_commit user st rect e1 e2 :
  canEditZones user = true →
  currentZone st = None → tempPoints st = [] →
  canonicalX rect e1 = 10%Z → canonicalY rect e1 = 10%Z →
  canonicalX rect e2 = 500%Z → canonicalY rect e2 = 500%Z →
  let drawn :=
    handleCanvasClick user
      (handleCanvasClick user (selectZone user st "A") (Some rect) e1)
      (Some rect) e2 in
  zones drawn = <["A" := Some (canon 10 10, canon 500 500)]> (zones st)
  ∧ tempPoints drawn = [canon 10 10; canon 500 500]
  ∧ (∀ rect' e, handleCanvasClick user drawn rect' e = drawn)
  ∧ (∀ st' rect' e,
       length (tempPoints st') = 2 ∨ currentZone st' = None →
       handleCanvasClick user st' rect' e = st').
Proof.
  intros Hedit _ _ Hx1 Hy1 Hx2 Hy2 drawn.
  assert (drawn =
    {| zones := <["A" := Some (canon 10 10, canon 500 500)]> (zones st);
       currentZone := Some "A";
       tempPoints := [canon 10 10; canon 500 500] |}) as ->.
  { subst drawn. unfold handleCanvasClick, selectZone, hasCurrentZone.
    rewrite Hedit. cbn -[canonicalX canonicalY canon].
    rewrite Hx1, Hy1, Hx2, Hy2. reflexivity. }
  split; [done|]. split; [done|]. split.
  - intros rect' e. unfold handleCanvasClick. cbn.
    by rewrite !orb_true_r.
  - intros st' rect' e [Hlen| Hnone]; unfold handleCanvasClick.
    + rewrite Hlen. cbn. by rewrite orb_true_r.
    + unfold hasCurrentZone. rewrite Hnone. cbn. by rewrite orb_true_r.
Qed.

Lemma two_point_commit_witness :
  let drawn :=
    handleCanvasClick operator
      (handleCanvasClick operator (selectZone operator initial "A")
         (Some nativeRect) (clickAt 10 10))
      (Some nativeRect) (clickAt 500 500) in
  zones drawn !! "A" = Some (Some (canon 10 10, canon 500 500))
  ∧ tempPoints drawn = [canon 10 10; canon 500 500].
Proof.
  destruct (two_point_commit operator initial nativeRect
              (clickAt 10 10) (clickAt 500 500))
    as (Hz & Ht & _); try reflexivity.
  split; [|exact Ht]. cbv zeta in Hz. rewrite Hz. apply lookup_insert_eq.
Defined.

(** C8: in every state a sequence of editor events leads to, at most two
    transient points are held: a click appends one point, and only to a
    list of fewer than two; selecting a zone and clearing all zones empty
    the list. *)
Theorem tempPoints_at_most_two :
  (∀ user platform st,
     reachable user platform st → length (tempPoints st) ≤ 2)
  ∧ (∀ user st rect e,
       handleCanvasClick user st rect e = st
       ∨ (length (tempPoints st) < 2
          ∧ ∃ p, tempPoints (handleCanvasClick user st rect e)
                 = tempPoints st ++ [p]))
  ∧ (∀ user st z,
       canEditZones user = true → tempPoints (selectZone user st z) = [])
  ∧ (∀ platform st, tempPoints (clearAll platform st true).1 = []).
Proof.
  split; [|split; [|split]].
  - apply reachable_tempPoints_bound.
  - apply handleCanvasClick_cases.
  - intros user st z Hedit. unfold selectZone. by rewrite Hedit.
  - done.
Qed.

Lemma tempPoints_at_most_two_witness :
  length (tempPoints
    (step operator "platform1"
       (step operator "platform1"
          (step operator "platform1" initial (OpSelectZone "B")).1
          (OpClick (Some smallRect) (clickAt 100 200))).1
       (OpClearZone "B" true true)).1) ≤ 2.
Proof.
  apply (proj1 tempPoints_at_most_two operator "platform1").
  do 3 apply reachable_step. apply reachable_initial.
Defined.

(** C9: for a user without the cameras page permission, a canvas click
    leaves the whole editor state, zones and transient points included,
    as it was, whatever zone is selected. *)
Theorem click_without_permission_is_ignored user st rect e :
  Permissions.hasPagePermission user "cameras" = false →
  handleCanvasClick user st rect e = st.
Proof.
  intros Hno. unfold handleCanvasClick, canEditZones. by rewrite Hno.
Qed.

Lemma click_without_permission_is_ignored_witness :
  Permissions.hasPagePermission guest "cameras" = false
  ∧ handleCanvasClick guest
      {| zones := onlyA; currentZone := Some "B"; tempPoints := [] |}
      (Some nativeRect) (clickAt 10 10)
    = {| zones := onlyA; currentZone := Some "B"; tempPoints := [] |}.
Proof.
  split; [reflexivity|].
  apply click_without_permission_is_ignored. reflexivity.
Defined.

(** C6: what the per-zone clear does.  It never touches the transient
    points; with zone A just drawn and still selected, clearing A sets
    A to [null] and posts the new body at once, and the two transient
    points stay. *)
Theorem clearZone_leaves_tempPoints :
  (∀ user platform st z confirmed posted,
     tempPoints (clearZone user platform st z confirmed posted).1
     = tempPoints st)
  ∧ canEditZones operator = true
  ∧ currentZone justDrawn = Some "A"
  ∧ clearZone operator "platform1" justDrawn "A" true true
    = ({| zones := <["A" := None]> (zones justDrawn);
          currentZone := Some "A";
          tempPoints := [canon 10 10; canon 500 500] |},
       [Post "platform1" [];
        DispatchZonesUpdated "platform1" (inr [])]).
Proof.
  split; [|split; [reflexivity|split; [reflexivity|]]].
  - intros user platform st z confirmed posted. apply clearZone_tempPoints.
  - vm_compute. reflexivity.
Qed.

(** ** Coordinate conversion *)

Section RoundTrip.

Local Open Scope Q_scope.

(** Rounding an integer value gives that integer. *)
Lemma Math_round_integer q (z : Z) : q == inject_Z z → Math_round q = z.
Proof.
  intros Hq. unfold Math_round. rewrite Hq.
  unfold Qfloor, Qplus, inject_Z. cbn [Qnum Qden].
  change (Z.pos (1 * 2)) with 2%Z.
  replace (z * 2 + 1 * 1)%Z with (z * 2 + 1)%Z by lia.
  rewrite Z.div_add_l by lia. change (1 / 2)%Z with 0%Z. lia.
Qed.

(** Scaling into a rectangle and back is the identity. *)
Lemma scale_back (origin extent full : Q) (z : Z) :
  ¬ extent == 0 → ¬ full == 0 →
  ((origin + (inject_Z z / full) * extent - origin) / extent) * full
  == inject_Z z.
Proof. intros He Hf. field. split; assumption. Qed.

Lemma canonicalX_toScreen rect px py :
  0 < rect_width rect → canonicalX rect (toScreen rect px py) = px.
Proof.
  intros Hw. unfold canonicalX, toScreen. cbn [clientX].
  apply Math_round_integer, scale_back; [|done].
  intros H0. rewrite H0 in Hw. by apply Qlt_irrefl in Hw.
Qed.

Lemma canonicalY_toScreen rect px py :
  0 < rect_height rect → canonicalY rect (toScreen rect px py) = py.
Proof.
  intros Hh. unfold canonicalY, toScreen. cbn [clientY].
  apply Math_round_integer, scale_back; [|done].
  intros H0. rewrite H0 in Hh. by apply Qlt_irrefl in Hh.
Qed.

End RoundTrip.

(** C7: a canonical point with 0 <= x <= 1020 and 0 <= y <= 600, mapped
    to the screen of a canvas rectangle of positive width and height and
    converted back by the click handler's formula, comes back within 1
    of the original in each coordinate. *)
Theorem coordinate_round_trip rect px py :
  (0 ≤ px ≤ 1020)%Z → (0 ≤ py ≤ 600)%Z →
  (0 < rect_width rect)%Q → (0 < rect_height rect)%Q →
  let e := toScreen rect px py in
  (Z.abs (canonicalX rect e - px) ≤ 1)%Z
  ∧ (Z.abs (canonicalY rect e - py) ≤ 1)%Z.
Proof.
  intros _ _ Hw Hh e. subst e.
  rewrite canonicalX_toScreen, canonicalY_toScreen by done. lia.
Qed.

Lemma coordinate_round_trip_witness :
  (Z.abs (canonicalX Samples.smallRect (toScreen Samples.smallRect 1020 333)
          - 1020) ≤ 1)%Z
  ∧ (Z.abs (canonicalY Samples.smallRect (toScreen Samples.smallRect 1020 333)
            - 333) ≤ 1)%Z.
Proof.
  apply (coordinate_round_trip Samples.smallRect 1020 333);
    first [lia | reflexivity].
Defined.

(** ** Dashboard widgets *)

Import Dashboard.

Section ZoneCountFacts.

Import PlatformGrid.
Local Open Scope Z_scope.

(** The quotient test against the threshold, as a comparison of
    products. *)
Lemma threshold_test (c t : Z) :
  0 < t →
  Qle_bool ZONE_DISPLAY_THRESHOLD (inject_Z c / inject_Z t) = true
  ↔ (ZONE_DISPLAY_THRESHOLD * inject_Z t <= inject_Z c)%Q.
Proof.
  intros Ht. rewrite Qle_bool_iff.
  assert (0 < inject_Z t)%Q as HtQ by (unfold Qlt; simpl; lia).
  assert (inject_Z c / inject_Z t * inject_Z t == inject_Z c)%Q as Hq.
  { field. intros H0. rewrite H0 in HtQ. by apply Qlt_irrefl in HtQ. }
  rewrite <- (Qmult_le_r _ _ _ HtQ). by rewrite Hq.
Qed.

Lemma shouldShowZoneCount_positive (c t : Z) :
  0 < c →
  shouldShowZoneCount c t = true
  ↔ t ≤ 0 ∨ (ZONE_DISPLAY_THRESHOLD * inject_Z t <= inject_Z c)%Q.
Proof.
  intros Hc. unfold shouldShowZoneCount, truthy_Z.
  destruct (Z.eqb_spec c 0) as [?|_]; [lia|].
  destruct (Z.leb_spec c 0) as [?|_]; [lia|]. cbn [negb orb].
  destruct (Z.eqb_spec t 0) as [->|Ht0]; cbn [negb orb].
  { split; [left; lia|done]. }
  destruct (Z.leb_spec t 0) as [Hle|Hlt].
  { split; [by left|done]. }
  rewrite threshold_test by done. split; [by right|].
  intros [?|?]; [lia|done].
Qed.

Lemma displayedCount_nonpositive (c t : Z) : c ≤ 0 → displayedCount c t = 0.
Proof.
  intros Hc. unfold displayedCount, shouldShowZoneCount, truthy_Z.
  destruct (Z.eqb_spec c 0) as [->|?]; [done|].
  destruct (Z.leb_spec c 0); [done|lia].
Qed.

End ZoneCountFacts.

(** C10: a zone counter that is positive but below a quarter of the
    platform's positive total is printed as 0; a positive counter is
    printed as it is exactly when the total is zero or less (an
    unavailable total counts as 0) or the counter reaches a quarter of
    it.  The loaded and unloaded lines of a tile apply this to the zone's
    counter and the platform's matching total. *)
Theorem small_zone_counts_are_hidden :
  (∀ c t : Z,
     (0 < c)%Z → (0 < t)%Z →
     (inject_Z c < PlatformGrid.ZONE_DISPLAY_THRESHOLD * inject_Z t)%Q →
     PlatformGrid.displayedCount c t = 0%Z)
  ∧ (∀ c t : Z,
       (0 < c)%Z →
       PlatformGrid.displayedCount c t = c ↔
       (t ≤ 0)%Z
       ∨ (PlatformGrid.ZONE_DISPLAY_THRESHOLD * inject_Z t <= inject_Z c)%Q)
  ∧ (∀ c t : Z, (c ≤ 0)%Z → PlatformGrid.displayedCount c t = 0%Z)
  ∧ (∀ stats cached z,
       PlatformGrid.displayedLoaded (PlatformGrid.mkPlatform stats cached) z
       = PlatformGrid.displayedCount
           (orZero (PlatformGrid.lookup_zone
                      (PlatformGrid.zones
                         (PlatformGrid.mkPlatform stats cached)) z
                    ≫= zone_loaded))
           (orZero (stats ≫= total_loaded))
       ∧ PlatformGrid.displayedUnloaded
           (PlatformGrid.mkPlatform stats cached) z
         = PlatformGrid.displayedCount
             (orZero (PlatformGrid.lookup_zone
                        (PlatformGrid.zones
                           (PlatformGrid.mkPlatform stats cached)) z
                      ≫= zone_unloaded))
             (orZero (stats ≫= total_unloaded))).
Proof.
  split; [|split; [|split]].
  - intros c t Hc Ht Hsmall. unfold PlatformGrid.displayedCount.
    destruct (PlatformGrid.shouldShowZoneCount c t) eqn:Hshow; [|done].
    apply shouldShowZoneCount_positive in Hshow as [?|Hge]; [lia| |done].
    exfalso. by apply (Qlt_not_le _ _ Hsmall).
  - intros c t Hc. rewrite <- shouldShowZoneCount_positive by done.
    unfold PlatformGrid.displayedCount.
    destruct (PlatformGrid.shouldShowZoneCount c t); split; try done.
    intros <-. lia.
  - apply displayedCount_nonpositive.
  - done.
Qed.

Lemma small_zone_counts_are_hidden_witness :
  PlatformGrid.displayedCount 24 100 = 0%Z
  ∧ PlatformGrid.displayedCount 25 100 = 25%Z
  ∧ PlatformGrid.displayedCount 3 0 = 3%Z.
Proof.
  split; [|split].
  - apply (proj1 small_zone_counts_are_hidden); [lia|lia|reflexivity].
  - apply (proj1 (proj2 small_zone_counts_are_hidden) 25 100)%Z; [lia|].
    right. discriminate.
  - apply (proj1 (proj2 small_zone_counts_are_hidden) 3 0)%Z; [lia|].
    left. lia.
Defined.

Section MergeFacts.

Import KPICards PlatformGrid.

Lemma hasCounts_hasKeys prev : hasCounts prev = true → hasKeys prev = true.
Proof. by destruct prev. Qed.

(** A merge keeps one of its two arguments, and takes the new one only
    under the rule's condition. *)
Lemma mergeLive_cases prev newStats :
  mergeLive prev newStats = prev
  ∨ (mergeLive prev newStats = newStats
     ∧ (hasLive newStats = true ∨ hasLive prev = false)).
Proof.
  unfold mergeLive.
  destruct (hasLive newStats), (hasLive prev), (sameStats prev newStats);
    cbn; auto.
Qed.



End MergeFacts.




(** ** Further properties: round trip of a save, fetch of the grid, colours *)

Section ExtraFacts.

(** Decoding what a save encodes gives the zone back. *)
Lemma decodeZone_encodeZone z : decodeZone (encodeZone z) = Some z.
Proof. by destruct z as [[x1 y1] [x2 y2]]. Qed.

(** A zone set over the fixed names is determined by its three slots. *)
Lemma fixed_slots_shape (zs : Zones) :
  dom zs = fixedNames →
  ∃ a b c, zs = <["A" := a]> (<["B" := b]> (<["C" := c]> ∅)).
Proof.
  intros Hdom.
  assert (∀ n, n ∈ FIXED_ZONE_NAMES → is_Some (zs !! n)) as Hin.
  { intros n Hn. apply elem_of_dom. rewrite Hdom. unfold fixedNames.
    by apply elem_of_list_to_set. }
  destruct (Hin "A") as [a Ha]; [compute_done|].
  destruct (Hin "B") as [b Hb]; [compute_done|].
  destruct (Hin "C") as [c Hc]; [compute_done|].
  exists a, b, c. apply map_eq. intros n.
  destruct (decide (n = "A")) as [->|HA]; [by rewrite lookup_insert_eq|].
  rewrite lookup_insert_ne by done.
  destruct (decide (n = "B")) as [->|HB]; [by rewrite lookup_insert_eq|].
  rewrite lookup_insert_ne by done.
  destruct (decide (n = "C")) as [->|HC]; [by rewrite lookup_insert_eq|].
  rewrite lookup_insert_ne, lookup_empty by done.
  apply not_elem_of_dom. rewrite Hdom. unfold fixedNames, FIXED_ZONE_NAMES.
  set_solver.
Qed.

Lemma load_of_saved (zs : Zones) :
  dom zs = fixedNames →
  normalizeZones (Some (serializeZones zs)) = zs
  ∧ reloadZones (Some (serializeZones zs)) = zs.
Proof.
  intros (a & b & c & ->)%fixed_slots_shape.
  destruct a as [[[ax1 ay1] [ax2 ay2]]|], b as [[[bx1 by1] [bx2 by2]]|],
    c as [[[cx1 cy1] [cx2 cy2]]|]; split; vm_compute; reflexivity.
Qed.

Import Palette.

Lemma charCodeSum_acc name sum :
  charCodeSum name sum = sum + charCodeSum name 0.
Proof.
  revert sum. induction name as [|c rest IH]; intros sum; simpl; [lia|].
  rewrite IH, (IH (Ascii.nat_of_ascii c)). lia.
Qed.

End ExtraFacts.

Section PaletteFacts.

Import Palette.

Lemma charCodeSum_sum_list name :
  charCodeSum name 0
  = sum_list_with Ascii.nat_of_ascii (String.list_ascii_of_string name).
Proof.
  induction name as [|c rest IH]; simpl; [done|].
  rewrite charCodeSum_acc, IH. done.
Qed.

End PaletteFacts.

(** X1: the platform grid's fetch of the today summary replaces the
    held statistics with the answer whatever they were: held counts do
    not survive an empty answer, and only a rejected request keeps
    them.  After an empty answer the next real-time message is taken as
    it is; fetched counts survive a real-time message without counts. *)
Theorem platform_grid_fetch_replaces :
  (∀ prev,
     PlatformGrid.hasCounts (PlatformGrid.fetchAllStats prev (Some None))
     = false)
  ∧ (∀ prev, PlatformGrid.fetchAllStats prev None = prev)
  ∧ (∀ prev total payload,
       PlatformGrid.applyRealtime
         (PlatformGrid.fetchAllStats prev (Some None))
         (Some {| total := total; platforms := Some payload |})
       = payload)
  ∧ (∀ prev answer total payload,
       PlatformGrid.hasCounts answer = true →
       PlatformGrid.hasCounts payload = false →
       PlatformGrid.applyRealtime
         (PlatformGrid.fetchAllStats prev (Some (Some answer)))
         (Some {| total := total; platforms := Some payload |})
       = answer).
Proof.
  split; [done|split; [done|split]].
  - intros prev total payload. cbn.
    unfold PlatformGrid.mergeRealtime. cbn. by rewrite andb_false_r.
  - intros prev answer total payload Ha Hp. cbn.
    unfold PlatformGrid.mergeRealtime.
    by rewrite Hp, (hasCounts_hasKeys _ Ha).
Qed.

(** X2: loading what a save posts gives back the zone set that was
    saved: for a zone set with exactly the fixed names as keys (as every
    successful load produces), both the initial load and the reload
    after a save decode the posted body to that same zone set. *)
Theorem load_save_load_is_stable :
  (∀ st st' data,
     let loaded := loadInitialData st (Body data) in
     zones (loadInitialData st'
              (Body (Some (serializeZones (zones loaded)))))
     = zones loaded)
  ∧ (∀ zs : Zones,
       dom zs = fixedNames →
       normalizeZones (Some (serializeZones zs)) = zs
       ∧ reloadZones (Some (serializeZones zs)) = zs).
Proof.
  split.
  - intros st st' data. cbn [loadInitialData zones].
    apply load_of_saved, normalizeZones_dom.
  - apply load_of_saved.
Qed.

(** X3: a zone's colour depends only on which characters its name
    holds, not on their order, and every name has a colour. *)
Theorem zone_colour_is_order_independent :
  (∀ a b,
     String.list_ascii_of_string a ≡ₚ String.list_ascii_of_string b →
     Palette.getZoneColor a = Palette.getZoneColor b)
  ∧ (∀ name, is_Some (Palette.getZoneColor name)).
Proof.
  split.
  - intros a b Hperm. unfold Palette.getZoneColor, Palette.zoneIndex.
    by rewrite !charCodeSum_sum_list, Hperm.
  - intros name. unfold Palette.getZoneColor, Palette.zoneIndex.
    apply lookup_lt_is_Some. apply Nat.mod_upper_bound. done.
Qed.

Lemma zone_colour_is_order_independent_witness :
  Palette.getZoneColor "AB" = Palette.getZoneColor "BA".
Proof.
  apply (proj1 zone_colour_is_order_independent).
  apply Permutation_swap.
Defined.

(** ** Page permissions *)

Section PermissionFacts.

Import Permissions.

Lemma includes_true names k : includes names k = true ↔ k ∈ names.
Proof. unfold includes. by rewrite bool_decide_eq_true. Qed.

(** The pages a stored list grants once the unknown ones are dropped. *)
Lemma normalized_pages (raw : list string) page :
  page ∈ filter (λ p, includes AVAILABLE_PAGES p = true) raw
  ↔ page ∈ AVAILABLE_PAGES ∧ page ∈ raw.
Proof. rewrite list_elem_of_filter, includes_true. tauto. Qed.

End PermissionFacts.

(** X4: the page check and the list of accessible pages agree on every
    page of the application; the list never holds a page the
    application does not have; and managing viewers is the users page
    permission. *)
Theorem page_check_matches_accessible_pages :
  (∀ user page,
     page ∈ Permissions.AVAILABLE_PAGES →
     Permissions.hasPagePermission user page = true
     ↔ page ∈ Permissions.getAccessiblePages user)
  ∧ (∀ user page,
       page ∈ Permissions.getAccessiblePages user →
       page ∈ Permissions.AVAILABLE_PAGES)
  ∧ (∀ user,
       Permissions.canManageViewers user
       = Permissions.hasPagePermission user "users").
Proof.
  split; [|split].
  - intros [[[] pp]|] page Hpage;
      unfold Permissions.hasPagePermission, Permissions.getAccessiblePages;
      cbn.
    + done.
    + apply includes_true.
    + split; [done|]. by intros ?%elem_of_nil.
  - intros [[[] pp]|] page;
      unfold Permissions.getAccessiblePages; cbn.
    + done.
    + by intros [? _]%normalized_pages.
    + by intros ?%elem_of_nil.
  - by intros [[[] pp]|].
Qed.

(** X5: a viewer is granted a page exactly when the page exists in the
    application and is in the viewer's stored list (a stored name the
    application does not know grants nothing); without a user nothing
    is granted; an administrator is granted every page, stored list or
    not. *)
Theorem viewer_pages_are_listed_and_known :
  (∀ pages page,
     Permissions.hasPagePermission
       (Some {| Permissions.role := Permissions.viewer;
                Permissions.page_permissions := pages |}) page = true
     ↔ page ∈ Permissions.AVAILABLE_PAGES ∧ page ∈ default [] pages)
  ∧ (∀ page, Permissions.hasPagePermission None page = false)
  ∧ (∀ pages page,
       Permissions.hasPagePermission
         (Some {| Permissions.role := Permissions.admin;
                  Permissions.page_permissions := pages |}) page = true).
Proof.
  split; [|split]; [|done|done].
  intros pages page. unfold Permissions.hasPagePermission. cbn.
  rewrite includes_true. apply normalized_pages.
Qed.

Lemma viewer_pages_are_listed_and_known_witness :
  Permissions.hasPagePermission
    (Some {| Permissions.role := Permissions.viewer;
             Permissions.page_permissions :=
               Some ["cameras"; "billing"] |}) "billing" = false.
Proof.
  apply not_true_is_false. intros H.
  apply (proj1 viewer_pages_are_listed_and_known) in H as [Hknown _].
  revert Hknown. unfold Permissions.AVAILABLE_PAGES.
  rewrite !elem_of_cons, elem_of_nil. intros Hk.
  repeat (destruct Hk as [Hk|Hk]; [discriminate Hk|]). done.
Defined.

(** X6: what normalisation keeps always validates; the default
    permissions of both roles validate; and a list that validates is
    read back from a viewer unchanged. *)
Theorem normalized_permissions_validate :
  (∀ user p,
     Permissions.normalizeUserPermissions user = Some p →
     Permissions.validatePermissions
       (Some (Permissions.up_page_permissions p)) = true)
  ∧ (∀ r,
       Permissions.validatePermissions
         (Some (Permissions.getDefaultPermissions r)) = true)
  ∧ (∀ pages,
       Permissions.validatePermissions (Some pages) = true →
       Permissions.getAccessiblePages
         (Some {| Permissions.role := Permissions.viewer;
                  Permissions.page_permissions := Some pages |}) = pages).
Proof.
  split; [|split].
  - intros [u|] p [= <-]. cbn. apply forallb_forall. intros page Hin.
    apply list_elem_of_In, normalized_pages in Hin as [Hk _].
    by apply includes_true.
  - intros []; reflexivity.
  - intros pages Hvalid. unfold Permissions.getAccessiblePages. cbn.
    cbn in Hvalid. rewrite forallb_forall in Hvalid.
    induction pages as [|page pages IH]; [done|].
    rewrite filter_cons_True by (apply Hvalid; by left).
    f_equal. apply IH. intros q Hq. apply Hvalid. by right.
Qed.

(** ** Clicks and canonical bounds *)

Section ConversionFacts.

Local Open Scope Q_scope.

Lemma Math_round_mono q q' : q <= q' → (Math_round q ≤ Math_round q')%Z.
Proof.
  intros Hq. unfold Math_round. apply Qfloor_resp_le.
  by apply Qplus_le_l.
Qed.

(** The scaled offset of a click grows with the pointer position. *)
Lemma scaled_mono (origin extent full c c' : Q) :
  0 < extent → 0 <= full → c <= c' →
  (c - origin) / extent * full <= (c' - origin) / extent * full.
Proof.
  intros He Hf Hc. apply Qmult_le_compat_r; [|done].
  unfold Qdiv. apply Qmult_le_compat_r.
  - unfold Qminus. by apply Qplus_le_l.
  - apply Qlt_le_weak, Qinv_lt_0_compat, He.
Qed.

Lemma scaled_origin (origin extent full : Q) :
  ¬ extent == 0 → (origin - origin) / extent * full == inject_Z 0.
Proof. intros He. field. done. Qed.

Lemma scaled_far (origin extent : Q) (full : Z) :
  ¬ extent == 0 →
  (origin + extent - origin) / extent * inject_Z full == inject_Z full.
Proof. intros He. field. done. Qed.

Lemma positive_nonzero (q : Q) : 0 < q → ¬ q == 0.
Proof. intros Hq H0. rewrite H0 in Hq. by apply Qlt_irrefl in Hq. Qed.

Lemma canonicalX_mono rect e e' :
  0 < rect_width rect → clientX e <= clientX e' →
  (canonicalX rect e ≤ canonicalX rect e')%Z.
Proof.
  intros Hw Hc. unfold canonicalX.
  apply Math_round_mono, scaled_mono; done.
Qed.

Lemma canonicalY_mono rect e e' :
  0 < rect_height rect → clientY e <= clientY e' →
  (canonicalY rect e ≤ canonicalY rect e')%Z.
Proof.
  intros Hh Hc. unfold canonicalY.
  apply Math_round_mono, scaled_mono; done.
Qed.

Lemma canonicalX_left rect e :
  0 < rect_width rect → clientX e == rect_left rect →
  canonicalX rect e = 0%Z.
Proof.
  intros Hw Hc. unfold canonicalX. apply Math_round_integer.
  rewrite Hc. by apply scaled_origin, positive_nonzero.
Qed.

Lemma canonicalX_right rect e :
  0 < rect_width rect → clientX e == rect_left rect + rect_width rect →
  canonicalX rect e = 1020%Z.
Proof.
  intros Hw Hc. unfold canonicalX. apply Math_round_integer.
  rewrite Hc. by apply (scaled_far _ _ 1020), positive_nonzero.
Qed.

Lemma canonicalY_top rect e :
  0 < rect_height rect → clientY e == rect_top rect →
  canonicalY rect e = 0%Z.
Proof.
  intros Hh Hc. unfold canonicalY. apply Math_round_integer.
  rewrite Hc. by apply scaled_origin, positive_nonzero.
Qed.

Lemma canonicalY_bottom rect e :
  0 < rect_height rect → clientY e == rect_top rect + rect_height rect →
  canonicalY rect e = 600%Z.
Proof.
  intros Hh Hc. unfold canonicalY. apply Math_round_integer.
  rewrite Hc. by apply (scaled_far _ _ 600), positive_nonzero.
Qed.

End ConversionFacts.

(** X7: a click inside the canvas rectangle (of positive width and
    height) converts to a canonical point inside the 1020x600 space. *)
Theorem click_inside_canvas_is_in_range rect e :
  (0 < rect_width rect)%Q → (0 < rect_height rect)%Q →
  (rect_left rect <= clientX e)%Q →
  (clientX e <= rect_left rect + rect_width rect)%Q →
  (rect_top rect <= clientY e)%Q →
  (clientY e <= rect_top rect + rect_height rect)%Q →
  (0 ≤ canonicalX rect e ≤ 1020)%Z ∧ (0 ≤ canonicalY rect e ≤ 600)%Z.
Proof.
  intros Hw Hh Hl Hr Ht Hb.
  pose (corner := {| clientX := rect_left rect; clientY := rect_top rect |}).
  pose (far := {| clientX := rect_left rect + rect_width rect;
                  clientY := rect_top rect + rect_height rect |}).
  pose proof (canonicalX_mono rect corner e Hw Hl) as Hx0.
  pose proof (canonicalX_mono rect e far Hw Hr) as Hx1.
  pose proof (canonicalY_mono rect corner e Hh Ht) as Hy0.
  pose proof (canonicalY_mono rect e far Hh Hb) as Hy1.
  rewrite (canonicalX_left rect corner Hw (Qeq_refl _)) in Hx0.
  rewrite (canonicalX_right rect far Hw (Qeq_refl _)) in Hx1.
  rewrite (canonicalY_top rect corner Hh (Qeq_refl _)) in Hy0.
  rewrite (canonicalY_bottom rect far Hh (Qeq_refl _)) in Hy1.
  done.
Qed.

Lemma click_inside_canvas_is_in_range_witness :
  (0 ≤ canonicalX Samples.smallRect (Samples.clickAt 658 599) ≤ 1020)%Z
  ∧ (0 ≤ canonicalY Samples.smallRect (Samples.clickAt 658 599) ≤ 600)%Z.
Proof.
  apply click_inside_canvas_is_in_range; vm_compute; congruence.
Defined.

(** X8: the conversion is monotone in each pointer coordinate, and the
    corners of the canvas rectangle convert to (0,0) and (1020,600). *)
Theorem conversion_is_monotone_and_anchored :
  (∀ rect e e',
     (0 < rect_width rect)%Q → (clientX e <= clientX e')%Q →
     (canonicalX rect e ≤ canonicalX rect e')%Z)
  ∧ (∀ rect e e',
       (0 < rect_height rect)%Q → (clientY e <= clientY e')%Q →
       (canonicalY rect e ≤ canonicalY rect e')%Z)
  ∧ (∀ rect,
       (0 < rect_width rect)%Q → (0 < rect_height rect)%Q →
       let corner :=
         {| clientX := rect_left rect; clientY := rect_top rect |} in
       let far :=
         {| clientX := rect_left rect + rect_width rect;
            clientY := rect_top rect + rect_height rect |} in
       canonicalX rect corner = 0%Z ∧ canonicalY rect corner = 0%Z
       ∧ canonicalX rect far = 1020%Z ∧ canonicalY rect far = 600%Z).
Proof.
  split; [|split].
  - apply canonicalX_mono.
  - apply canonicalY_mono.
  - intros rect Hw Hh corner far.
    by rewrite (canonicalX_left rect corner Hw (Qeq_refl _)),
      (canonicalY_top rect corner Hh (Qeq_refl _)),
      (canonicalX_right rect far Hw (Qeq_refl _)),
      (canonicalY_bottom rect far Hh (Qeq_refl _)).
Qed.

(** ** More about the editor's state machine *)

Section EditorInvariants.

Variable user : option Permissions.User.
Variable platform : string.

Lemma afterPost_currentZone st posted zonesRes failure andThen :
  currentZone (afterPost platform st posted zonesRes failure andThen).1
  = currentZone st.
Proof. unfold afterPost. by destruct posted, zonesRes. Qed.

(** No event leaves transient points behind without a selected zone. *)
Lemma step_idle_has_no_points st op :
  (currentZone st = None → tempPoints st = []) →
  currentZone (step user platform st op).1 = None →
  tempPoints (step user platform st op).1 = [].
Proof.
  intros Hst. destruct op as [r|z|rect e|z c p|c|p r| |p r| ]; cbn [step fst].
  - by destruct r.
  - unfold selectZone. by destruct (negb (canEditZones user)).
  - unfold handleCanvasClick.
    destruct (negb (canEditZones user) || negb (hasCurrentZone st)
              || (2 <=? length (tempPoints st))); [done|].
    destruct rect as [r|]; [|done].
    destruct (currentZone st) as [z|] eqn:Hz; [|intros _; by apply Hst].
    cbn [currentZone]. intros; congruence.
  - unfold clearZone.
    by destruct (negb (canEditZones user)), (negb c).
  - unfold clearAll. by destruct (negb c).
  - unfold clearAll_resume.
    by rewrite afterPost_currentZone, afterPost_tempPoints.
  - done.
  - unfold handleSave_resume.
    by rewrite afterPost_currentZone, afterPost_tempPoints.
  - done.
Qed.

(** What a click leaves alone. *)
Lemma handleCanvasClick_frame st rect e :
  currentZone (handleCanvasClick user st rect e) = currentZone st
  ∧ ∀ n, currentZone st ≠ Some n →
         zones (handleCanvasClick user st rect e) !! n = zones st !! n.
Proof.
  unfold handleCanvasClick.
  destruct (negb (canEditZones user) || negb (hasCurrentZone st)
            || (2 <=? length (tempPoints st))); [done|].
  destruct rect as [r|], (currentZone st) as [z|] eqn:Hz; try done.
  split; [done|]. intros n Hn. cbn [zones].
  destruct (tempPoints st ++ _) as [|p1 [|p2 [|p3 ps]]]; try done.
  rewrite lookup_insert_ne; [done|congruence].
Qed.

(** The keys an event can add are the selected zone and fixed names. *)
Lemma step_dom st op :
  EditorUI.uiOp op →
  (∀ z, currentZone st = Some z → z ∈ FIXED_ZONE_NAMES) →
  dom (zones st) ⊆ fixedNames →
  dom (zones (step user platform st op).1) ⊆ fixedNames
  ∧ (∀ z, currentZone (step user platform st op).1 = Some z →
          z ∈ FIXED_ZONE_NAMES).
Proof.
  intros Hop Hcur Hdom.
  assert (∀ z, z ∈ FIXED_ZONE_NAMES → z ∈ fixedNames) as Hfix.
  { intros z Hz. unfold fixedNames. by apply elem_of_list_to_set. }
  assert (∀ posted r failure andThen,
    dom (zones (afterPost platform st posted r failure andThen).1)
      ⊆ fixedNames
    ∧ (∀ z, currentZone
              (afterPost platform st posted r failure andThen).1 = Some z →
            z ∈ FIXED_ZONE_NAMES)) as Hafter.
  { intros posted r failure andThen. rewrite afterPost_currentZone.
    split; [|done]. unfold afterPost.
    destruct posted, r; try done. cbn [fst zones].
    unfold reloadZones, FIXED_ZONE_NAMES. cbn [foldl]. unfold reloadSlot.
    repeat (destruct (remoteEntry _ _) as [?|]; [destruct (truthy _)|]);
      rewrite !dom_insert_L, dom_empty_L; unfold fixedNames,
      FIXED_ZONE_NAMES; set_solver. }
  destruct op as [r|z|rect e|z c p|c|p r| |p r| ]; cbn [step fst].
  - destruct r; [done|]. cbn [loadInitialData zones currentZone].
    split; [|done]. by rewrite normalizeZones_dom.
  - unfold selectZone. destruct (negb (canEditZones user)); [done|].
    cbn [zones currentZone]. split; [done|]. by intros ? [= <-].
  - destruct (handleCanvasClick_frame st rect e) as [Hc Hz].
    rewrite Hc. split; [|done].
    intros n Hn%elem_of_dom. destruct (decide (currentZone st = Some n)).
    + by apply Hfix, Hcur.
    + rewrite Hz in Hn by done. apply Hdom. by apply elem_of_dom.
  - unfold clearZone.
    destruct (negb (canEditZones user)), (negb c); try done.
    cbn [fst zones currentZone]. split; [|done].
    rewrite dom_insert_L. cbn in Hop. apply Hfix in Hop. set_solver.
  - unfold clearAll. destruct (negb c); [done|].
    cbn [fst zones currentZone]. split; [|done].
    unfold clearedZones, FIXED_ZONE_NAMES. cbn [foldl].
    rewrite !dom_insert_L, dom_empty_L. unfold fixedNames,
      FIXED_ZONE_NAMES. set_solver.
  - apply Hafter.
  - done.
  - apply Hafter.
  - done.
Qed.

Lemma reachableUI_dom st :
  EditorUI.reachableUI user platform st →
  dom (zones st) ⊆ fixedNames
  ∧ (∀ z, currentZone st = Some z → z ∈ FIXED_ZONE_NAMES).
Proof.
  induction 1 as [|st op _ [IHd IHc] Hop]; [done|].
  by apply step_dom.
Qed.

End EditorInvariants.


(** X9: in every state a sequence of editor events leads to, transient
    points are held only while a zone is selected. *)
Theorem idle_editor_has_no_transient_points user platform st :
  reachable user platform st →
  currentZone st = None → tempPoints st = [].
Proof.
  induction 1 as [|st op _ IH]; [done|].
  by apply step_idle_has_no_points.
Qed.

Lemma idle_editor_has_no_transient_points_witness :
  tempPoints
    (step operator "platform1"
       (step operator "platform1"
          (step operator "platform1" initial (OpSelectZone "A")).1
          (OpClick (Some nativeRect) (clickAt 5 5))).1
       (OpClearAll true)).1 = [].
Proof.
  apply (idle_editor_has_no_transient_points operator "platform1");
    [|reflexivity].
  do 3 apply reachable_step. apply reachable_initial.
Defined.

(** X10: when zones are named through the editor's buttons, the zone
    set never holds a key that is no fixed name, whatever the server
    answers; and a click never changes the selected zone nor the
    geometry of a zone that is not selected. *)
Theorem editor_keys_stay_fixed :
  (∀ user platform st,
     EditorUI.reachableUI user platform st →
     dom (zones st) ⊆ fixedNames)
  ∧ (∀ user st rect e,
       currentZone (handleCanvasClick user st rect e) = currentZone st
       ∧ ∀ n, currentZone st ≠ Some n →
              zones (handleCanvasClick user st rect e) !! n
              = zones st !! n).
Proof.
  split.
  - intros user platform st Hst. by apply (reachableUI_dom user platform).
  - apply handleCanvasClick_frame.
Qed.

Lemma editor_keys_stay_fixed_witness :
  dom (zones
         (step operator "platform1"
            (step operator "platform1"
               (step operator "platform1" initial (OpSelectZone "C")).1
               (OpClick (Some nativeRect) (clickAt 5 5))).1
            (OpClick (Some nativeRect) (clickAt 50 50))).1)
  ⊆ fixedNames.
Proof.
  apply (proj1 editor_keys_stay_fixed operator "platform1").
  repeat (apply EditorUI.reachableUI_step;
          [|first [exact I | cbn; compute_done]]).
  apply EditorUI.reachableUI_initial.
Defined.

(** ** Requests and notifications *)

Section EffectFacts.

Variable user : option Permissions.User.
Variable platform : string.

Lemma afterPost_effects st posted zonesRes failure andThen :
  (afterPost platform st posted zonesRes failure andThen).2
  = match posted, zonesRes with
    | true, Body data =>
        DispatchZonesUpdated platform (inl (reloadZones data)) :: andThen
    | _, _ => [Alert failure]
    end.
Proof. unfold afterPost. by destruct posted, zonesRes. Qed.

(** Reading the body the per-zone clear posts. *)
Lemma get_serializeZones (zs : Zones) n :
  get (serializeZones zs) n =
  if decide (n ∈ FIXED_ZONE_NAMES)
  then match zs !! n with
       | Some (Some zone) => Some (encodeZone zone)
       | _ => None
       end
  else None.
Proof. apply get_serializeZones_aux. Qed.

End EffectFacts.

(** X11: the editor notifies the other widgets only after a request
    that went through: an event's effects hold a notification exactly
    when it is a save or clear-all whose post and reload both succeeded,
    or a confirmed per-zone clear by a user who may edit whose post
    succeeded; there is never more than one notification nor more than
    one post per event; and [onClose] is called by the close buttons and
    by a save that went through, by nothing else: a save that failed
    leaves the editor open. *)
Theorem notifications_follow_success user platform st op :
  (EditorUI.dispatches (step user platform st op).2 ≠ [] ↔
   EditorUI.succeeded op = true
   ∨ (canEditZones user = true ∧ ∃ z, op = OpClearZone z true true))
  ∧ length (EditorUI.dispatches (step user platform st op).2) ≤ 1
  ∧ length (EditorUI.posts (step user platform st op).2) ≤ 1
  ∧ (OnClose ∈ (step user platform st op).2 ↔
     op = OpClose ∨ ∃ data, op = OpSaveResume true (Body data)).
Proof.
  destruct op as [r|z|rect e|z c p|c|p r| |p r| ]; cbn [step snd].
  - repeat split; try done; try (cbn; lia).
    + intros [?|[_ [? ?]]]; done.
    + by intros ?%elem_of_nil.
    + by intros [?|[? ?]].
  - repeat split; try done; try (cbn; lia).
    + intros [?|[_ [? ?]]]; done.
    + by intros ?%elem_of_nil.
    + by intros [?|[? ?]].
  - repeat split; try done; try (cbn; lia).
    + intros [?|[_ [? ?]]]; done.
    + by intros ?%elem_of_nil.
    + by intros [?|[? ?]].
  - unfold clearZone.
    destruct (canEditZones user) eqn:Hedit, c, p; cbn;
      repeat split; try done; try lia;
      try (intros [?|[? [? ?]]]; congruence);
      try (by intros ?%elem_of_nil);
      try (by intros [?|[? ?]]);
      try (intros _; right; eauto; fail);
      try (rewrite !elem_of_cons, elem_of_nil; naive_solver).
  - unfold clearAll. destruct c; cbn;
      repeat split; try done; try lia;
      try (intros [?|[? [? ?]]]; congruence);
      try (by intros ?%elem_of_nil);
      try (by intros [?|[? ?]]);
      try (rewrite !elem_of_cons, elem_of_nil; naive_solver).
  - unfold clearAll_resume. rewrite afterPost_effects.
    destruct p, r; cbn;
      repeat split; try done; try lia;
      try (intros [?|[? [? ?]]]; congruence);
      try (by intros [?|[? ?]]);
      try (by left);
      try (rewrite !elem_of_cons, elem_of_nil; naive_solver).
  - cbn. repeat split; try done; try lia;
      try (intros [?|[? [? ?]]]; congruence);
      try (by intros [?|[? ?]]);
      try (rewrite !elem_of_cons, elem_of_nil; naive_solver).
  - unfold handleSave_resume. rewrite afterPost_effects.
    destruct p, r; cbn;
      repeat split; try done; try lia;
      try (intros [?|[? [? ?]]]; congruence);
      try (intros [?|[? ?]]; congruence);
      try (by left);
      try (intros _; eauto; fail);
      try (rewrite !elem_of_cons, elem_of_nil; naive_solver).
  - cbn. repeat split; try done; try lia;
      try (intros [?|[? [? ?]]]; congruence);
      try (intros _; by left);
      try (rewrite !elem_of_cons, elem_of_nil; naive_solver).
Qed.

(** X12: the body a confirmed per-zone clear posts holds no entry for
    the cleared zone and the same entry as a save of the zones before
    the clear for every other name; when the post succeeds that same
    body is what is sent to the other widgets. *)
Theorem clearZone_posts_the_rest user platform st z posted :
  canEditZones user = true →
  ∃ body,
    EditorUI.posts (clearZone user platform st z true posted).2 = [body]
    ∧ get body z = None
    ∧ (∀ n, n ≠ z → get body n = get (serializeZones (zones st)) n)
    ∧ EditorUI.dispatches (clearZone user platform st z true posted).2
      = if posted then [(platform, inr body)] else [].
Proof.
  intros Hedit. unfold clearZone. rewrite Hedit. cbn [negb].
  eexists. split; [by destruct posted|]. split; [|split].
  - rewrite get_serializeZones, lookup_insert_eq. by case_decide.
  - intros n Hn. rewrite !get_serializeZones, lookup_insert_ne by done.
    done.
  - by destruct posted.
Qed.

Lemma clearZone_posts_the_rest_witness :
  ∃ body,
    EditorUI.posts
      (clearZone operator "platform1" justDrawn "A" true true).2 = [body]
    ∧ get body "A" = None.
Proof.
  destruct (clearZone_posts_the_rest operator "platform1" justDrawn "A" true)
    as (body & Hp & Hz & _); [reflexivity|].
  exists body. by split.
Defined.

(** ** Load and reload compared *)

Section ReloadFacts.

Import Notions.

Lemma foldl_reloadSlot_lookup data names (m : Zones) n :
  foldl (reloadSlot data) m names !! n =
  if decide (n ∈ names) then Some (slotOf data n) else m !! n.
Proof.
  revert m. induction names as [|k names IH]; intros m; cbn [foldl].
  - by rewrite decide_False by apply not_elem_of_nil.
  - rewrite IH. destruct (decide (n ∈ names)) as [Hin|Hin].
    + by rewrite decide_True by (by right).
    + destruct (decide (k = n)) as [->|Hne].
      * rewrite decide_True by (by left). unfold reloadSlot, slotOf.
        destruct (remoteEntry data n) as [v|]; [destruct (truthy v)|];
          by rewrite lookup_insert_eq.
      * rewrite decide_False by (rewrite elem_of_cons; naive_solver).
        unfold reloadSlot.
        destruct (remoteEntry data k) as [v|]; [destruct (truthy v)|];
          by rewrite lookup_insert_ne.
Qed.

Lemma foldl_directMatch_lookup data names (m : Zones) n :
  NoDup names →
  foldl (directMatch data) m names !! n =
  if decide (n ∈ names)
  then match remoteEntry data n with
       | Some v => if truthy v then Some (decodeZone v) else m !! n
       | None => m !! n
       end
  else m !! n.
Proof.
  intros Hnd. revert m.
  induction Hnd as [|k names Hk Hnd IH]; intros m; cbn [foldl].
  - by rewrite decide_False by apply not_elem_of_nil.
  - rewrite IH. destruct (decide (k = n)) as [->|Hne].
    + rewrite (decide_False (P := n ∈ names)) by done.
      rewrite decide_True by (by left). unfold directMatch.
      destruct (remoteEntry data n) as [v|]; [destruct (truthy v)|];
        by rewrite ?lookup_insert_eq.
    + assert (directMatch data m k !! n = m !! n) as ->.
      { unfold directMatch.
        destruct (remoteEntry data k) as [v|]; [destruct (truthy v)|];
          by rewrite ?lookup_insert_ne. }
      destruct (decide (n ∈ names)) as [Hin|Hin].
      * by rewrite decide_True by (by right).
      * by rewrite decide_False by (rewrite elem_of_cons; naive_solver).
Qed.

Lemma ensureFixed_lookup (m : Zones) n :
  ensureFixed m !! n =
  if decide (n ∈ FIXED_ZONE_NAMES)
  then Some (default None (m !! n))
  else m !! n.
Proof.
  unfold ensureFixed. revert m.
  induction FIXED_ZONE_NAMES as [|k names IH]; intros m; cbn [foldl].
  - by rewrite decide_False by apply not_elem_of_nil.
  - rewrite IH. destruct (decide (k = n)) as [->|Hne].
    + rewrite (decide_True (P := n ∈ n :: names)) by (by left).
      destruct (m !! n) as [v|] eqn:Hn.
      * rewrite Hn. by case_decide.
      * rewrite lookup_insert_eq. by case_decide.
    + assert (match m !! k with
              | Some _ => m
              | None => <[k:=None]> m
              end !! n = m !! n) as ->.
      { destruct (m !! k); by rewrite ?lookup_insert_ne. }
      destruct (decide (n ∈ names)) as [Hin|Hin].
      * by rewrite decide_True by (by right).
      * by rewrite decide_False by (rewrite elem_of_cons; naive_solver).
Qed.

(** With fixed names only among the keys the second loop does nothing. *)
Lemma fillRemaining_fixed_only o ks fi (m : Zones) :
  (∀ k, k ∈ ks → k ∈ FIXED_ZONE_NAMES) → fillRemaining o ks fi m = m.
Proof.
  revert fi m. induction ks as [|k ks IH]; intros fi m Hks; [done|].
  cbn [fillRemaining]. unfold includes.
  rewrite bool_decide_eq_true_2 by (apply Hks; by left).
  apply IH. intros k' Hk'. apply Hks. by right.
Qed.

Lemma reloadZones_lookup data n :
  reloadZones data !! n =
  if decide (n ∈ FIXED_ZONE_NAMES) then Some (slotOf data n) else None.
Proof.
  unfold reloadZones. rewrite foldl_reloadSlot_lookup.
  by rewrite lookup_empty.
Qed.

End ReloadFacts.

(** X13: the reload after a save reads each fixed name from the entry
    under that very name (a missing, falsy or malformed entry gives
    [null], whatever the other entries are) and ignores every other
    key; on a payload whose keys are all fixed names the initial load
    gives the same zone set as the reload, so it depends on the entries
    only and not on their order; with other keys the order of the
    payload does matter to the initial load. *)
Theorem reload_reads_exact_names_only :
  (∀ data n,
     reloadZones data !! n =
     if decide (n ∈ FIXED_ZONE_NAMES)
     then Some (match remoteEntry data n with
                | Some v => if truthy v then decodeZone v else None
                | None => None
                end)
     else None)
  ∧ (∀ o,
       (∀ k, k ∈ keys o → k ∈ FIXED_ZONE_NAMES) →
       normalizeZones (Some o) = reloadZones (Some o))
  ∧ (∀ o o',
       (∀ k, k ∈ keys o → k ∈ FIXED_ZONE_NAMES) →
       (∀ k, k ∈ keys o' → k ∈ FIXED_ZONE_NAMES) →
       (∀ k, get o k = get o' k) →
       normalizeZones (Some o) = normalizeZones (Some o'))
  ∧ (∃ o o', o ≡ₚ o' ∧ normalizeZones (Some o) ≠ normalizeZones (Some o')).
Proof.
  assert (∀ o,
    (∀ k, k ∈ keys o → k ∈ FIXED_ZONE_NAMES) →
    normalizeZones (Some o) = reloadZones (Some o)) as Hsame.
  { intros o Hkeys. apply map_eq. intros n.
    rewrite reloadZones_lookup. unfold normalizeZones. cbn [default].
    rewrite fillRemaining_fixed_only by done.
    rewrite ensureFixed_lookup. unfold directMatches.
    rewrite foldl_directMatch_lookup by apply NoDup_FIXED_ZONE_NAMES.
    rewrite lookup_empty. unfold Notions.slotOf.
    destruct (decide (n ∈ FIXED_ZONE_NAMES)); [|done].
    destruct (remoteEntry (Some o) n) as [v|]; [destruct (truthy v)|];
      done. }
  split; [apply reloadZones_lookup|]. split; [exact Hsame|]. split.
  - intros o o' Ho Ho' Hget. rewrite !Hsame by done.
    apply map_eq. intros n. rewrite !reloadZones_lookup.
    unfold Notions.slotOf. cbn [remoteEntry]. by rewrite Hget.
  - exists [("old1", segment 1 1 2 2); ("old2", segment 3 3 4 4)],
           [("old2", segment 3 3 4 4); ("old1", segment 1 1 2 2)].
    split; [apply Permutation_swap|].
    intros Heq.
    assert (normalizeZones
              (Some [("old1", segment 1 1 2 2); ("old2", segment 3 3 4 4)])
            !! "A" = Some (Some (canon 1 1, canon 2 2))) as HA
      by (vm_compute; reflexivity).
    rewrite Heq in HA. vm_compute in HA. discriminate HA.
Qed.

Lemma reload_reads_exact_names_only_witness :
  normalizeZones (Some [("B", JNum 7); ("A", segment 1 2 3 4)])
  = reloadZones (Some [("B", JNum 7); ("A", segment 1 2 3 4)]).
Proof.
  apply (proj1 (proj2 reload_reads_exact_names_only)).
  intros k. cbn. rewrite !elem_of_cons, elem_of_nil.
  unfold FIXED_ZONE_NAMES. rewrite !elem_of_cons. naive_solver.
Defined.

(** ** From the editor's notification to the grid's tiles *)

Section GridCacheFacts.

Import GridCache.

(** An editor-format zone set lists no zone for the tile filter. *)
Lemma validZoneKeys_jsReloaded (zs : Zones) : validZoneKeys (jsReloaded zs) = [].
Proof.
  unfold validZoneKeys, jsReloaded, FIXED_ZONE_NAMES. cbn [omap list_omap].
  destruct (zs !! "A") as [[[a1 a2]|]|], (zs !! "B") as [[[b1 b2]|]|],
    (zs !! "C") as [[[c1 c2]|]|]; vm_compute; reflexivity.
Qed.

(** A backend-format body lists exactly its own keys. *)
Lemma validZoneKeys_serializeZones (zs : Zones) :
  validZoneKeys (serializeZones zs) = keys (serializeZones zs).
Proof.
  unfold validZoneKeys, serializeZones, FIXED_ZONE_NAMES.
  cbn [omap list_omap].
  destruct (zs !! "A") as [[a|]|], (zs !! "B") as [[b|]|],
    (zs !! "C") as [[c|]|]; vm_compute; reflexivity.
Qed.

Lemma notifyGrid_single cache cameraIds platform detail :
  truthy_string platform = true →
  tileZones None
    (foldl (λ c pd, onZonesUpdated c cameraIds pd.1 (Some pd.2) None) cache
           [(platform, detail)]) platform
  = detailZones detail.
Proof.
  intros Hp. cbn [foldl fst snd]. unfold onZonesUpdated, tileZones.
  rewrite Hp. cbn [negb]. by rewrite lookup_insert_eq.
Qed.

End GridCacheFacts.

(** X14: when the statistics carry no zones for a platform, the grid
    shows the zones it cached from the editor's last notification.
    After a save that went through, the cached zone set is in the
    editor's own format and the tile filter lists none of its zones;
    after a per-zone clear whose post succeeded, the cached body is in
    the backend's format and the filter lists exactly the zones still
    defined. *)
Theorem grid_tiles_after_editor_notification :
  (∀ platform st data cache cameraIds,
     truthy_string platform = true →
     GridCache.validZoneKeys
       (GridCache.tileZones None
          (GridCache.notifyGrid cache cameraIds
             (handleSave_resume platform st true (Body data)).2)
          platform) = [])
  ∧ (∀ user platform st z cache cameraIds,
       truthy_string platform = true → canEditZones user = true →
       GridCache.validZoneKeys
         (GridCache.tileZones None
            (GridCache.notifyGrid cache cameraIds
               (clearZone user platform st z true true).2)
            platform)
       = keys (serializeZones (<[z := None]> (zones st)))).
Proof.
  split.
  - intros platform st data cache cameraIds Hp.
    unfold handleSave_resume. rewrite afterPost_effects.
    unfold GridCache.notifyGrid. cbn [EditorUI.dispatches omap list_omap].
    rewrite notifyGrid_single by done.
    apply validZoneKeys_jsReloaded.
  - intros user platform st z cache cameraIds Hp Hedit.
    unfold clearZone. rewrite Hedit. cbn [negb snd].
    unfold GridCache.notifyGrid. cbn [EditorUI.dispatches omap list_omap].
    rewrite notifyGrid_single by done.
    apply validZoneKeys_serializeZones.
Qed.

Lemma grid_tiles_after_editor_notification_witness :
  GridCache.validZoneKeys
    (GridCache.tileZones None
       (GridCache.notifyGrid ∅ ["platform1"]
          (handleSave_resume "platform1" justDrawn true
             (Body (Some [("A", segment 10 10 500 500)]))).2)
       "platform1") = [].
Proof.
  apply (proj1 grid_tiles_after_editor_notification). reflexivity.
Defined.

(** ** KPI totals *)

Section KPIFacts.

Import KPICards Notions.
Local Open Scope Z_scope.

(** The reduction adds the counters of the buckets to the start value. *)
Lemma foldl_sum (buckets : list Bucket) (acc : Z * Z) :
  foldl (λ acc b, (acc.1 + orZero (carregados b),
                   acc.2 + orZero (descarregados b))) acc buckets
  = (acc.1 + foldr (λ b s, orZero (carregados b) + s) 0 buckets,
     acc.2 + foldr (λ b s, orZero (descarregados b) + s) 0 buckets).
Proof.
  revert acc. induction buckets as [|b bs IH]; intros [l u]; cbn.
  - f_equal; lia.
  - rewrite IH. cbn. f_equal; lia.
Qed.

Lemma sumBuckets_perm a b : a ≡ₚ b → sumBuckets a = sumBuckets b.
Proof.
  intros Hperm. unfold sumBuckets. rewrite !foldl_sum. cbn.
  induction Hperm as [|x l l' _ IH|x y l|l l' l'' _ IH1 _ IH2]; cbn.
  - done.
  - injection IH as H1 H2. f_equal; lia.
  - f_equal; lia.
  - congruence.
Qed.

Lemma sumBuckets_app a b :
  sumBuckets (a ++ b)
  = ((sumBuckets a).1 + (sumBuckets b).1, (sumBuckets a).2 + (sumBuckets b).2).
Proof.
  unfold sumBuckets. rewrite foldl_app, (foldl_sum b), (foldl_sum a).
  rewrite (foldl_sum b (0, 0)). cbn. f_equal; lia.
Qed.

Lemma mergeLive_balanced prev newStats :
  balanced prev → balanced newStats → balanced (mergeLive prev newStats).
Proof.
  intros Hp Hn. unfold mergeLive.
  destruct (negb (hasLive newStats) && hasLive prev); [done|].
  by destruct (sameStats prev newStats).
Qed.

Lemma threshold_days (ms days : Z) :
  Qle_bool (inject_Z ms / inject_Z MS_PER_DAY) (inject_Z days) = true
  ↔ ms ≤ days * MS_PER_DAY.
Proof.
  rewrite Qle_bool_iff. unfold MS_PER_DAY.
  assert (0 < inject_Z (1000 * 60 * 60 * 24))%Q as Hpos by done.
  rewrite <- (Qmult_le_r _ _ _ Hpos).
  assert (inject_Z ms / inject_Z (1000 * 60 * 60 * 24)
          * inject_Z (1000 * 60 * 60 * 24) == inject_Z ms)%Q as -> by
    (field; done).
  rewrite <- inject_Z_mult, <- Zle_Qle. done.
Qed.

(** The period of a range of [ms] milliseconds, by its thresholds. *)
Lemma periodOfDiff_thresholds (ms : Z) :
  periodOfDiff (Some ms) =
  if decide (ms ≤ MS_PER_DAY) then hour
  else if decide (ms ≤ 7 * MS_PER_DAY) then day
  else if decide (ms ≤ 60 * MS_PER_DAY) then week
  else month.
Proof.
  unfold periodOfDiff.
  destruct (Z.leb_spec ms MS_PER_DAY) as [H1|H1].
  { by rewrite decide_True. }
  rewrite decide_False by lia.
  pose proof (threshold_days ms 7) as H7.
  pose proof (threshold_days ms 60) as H60.
  change (inject_Z 7) with 7%Q in H7. change (inject_Z 60) with 60%Q in H60.
  destruct (Qle_bool (inject_Z ms / inject_Z MS_PER_DAY) 7) eqn:E7.
  { rewrite decide_True; [done|]. by apply H7. }
  rewrite decide_False by (intros H; apply H7 in H; done).
  destruct (Qle_bool (inject_Z ms / inject_Z MS_PER_DAY) 60) eqn:E60.
  { rewrite decide_True; [done|]. by apply H60. }
  rewrite decide_False by (intros H; apply H60 in H; done).
  done.
Qed.

(** Coarseness of a period. *)
Lemma periodOfDiff_mono (a b : Z) :
  a ≤ b →
  (periodRank (periodOfDiff (Some a)) ≤ periodRank (periodOfDiff (Some b)))%nat.
Proof.
  intros Hab. rewrite !periodOfDiff_thresholds.
  repeat case_decide; cbn; lia.
Qed.

End KPIFacts.

(** X15: the totals of a fetch do not depend on the order of the
    buckets, the totals of two lists of buckets add up, a bucket
    without a counter counts as 0, and the balance computed from a
    fetch is the difference of its two totals. *)
Theorem kpi_totals_add_up :
  (∀ a b, a ≡ₚ b → KPICards.statsOfBuckets a = KPICards.statsOfBuckets b)
  ∧ (∀ a b,
       KPICards.loaded (KPICards.statsOfBuckets (a ++ b))
       = (KPICards.loaded (KPICards.statsOfBuckets a)
          + KPICards.loaded (KPICards.statsOfBuckets b))%Z
       ∧ KPICards.unloaded (KPICards.statsOfBuckets (a ++ b))
         = (KPICards.unloaded (KPICards.statsOfBuckets a)
            + KPICards.unloaded (KPICards.statsOfBuckets b))%Z)
  ∧ (∀ a,
       KPICards.statsOfBuckets
         ({| KPICards.carregados := None;
             KPICards.descarregados := None |} :: a)
       = KPICards.statsOfBuckets a).
Proof.
  split; [|split].
  - intros a b Hperm. unfold KPICards.statsOfBuckets.
    by rewrite (sumBuckets_perm a b).
  - intros a b. unfold KPICards.statsOfBuckets. cbn.
    by rewrite sumBuckets_app.
  - intros a. unfold KPICards.statsOfBuckets.
    change ({| KPICards.carregados := None;
               KPICards.descarregados := None |} :: a)
      with ([{| KPICards.carregados := None;
                KPICards.descarregados := None |}] ++ a).
    rewrite sumBuckets_app. cbn. by destruct (KPICards.sumBuckets a).
Qed.

Lemma kpi_totals_add_up_witness :
  KPICards.statsOfBuckets
    [{| KPICards.carregados := Some 3%Z; KPICards.descarregados := None |};
     {| KPICards.carregados := Some 4%Z;
        KPICards.descarregados := Some 2%Z |}]
  = KPICards.statsOfBuckets
    [{| KPICards.carregados := Some 4%Z;
        KPICards.descarregados := Some 2%Z |};
     {| KPICards.carregados := Some 3%Z; KPICards.descarregados := None |}].
Proof.
  apply (proj1 kpi_totals_add_up). apply Permutation_swap.
Defined.

(** X16: the balance card starts as the difference of the loaded and
    unloaded cards, and every fetch (failed or not) and every real-time
    message for a selected platform keep that relation; whenever one of
    these changes what is shown, the new balance is that difference,
    whatever was shown before.  The real-time message for all platforms
    is different: it shows the balance the server sent.  After a message
    whose balance is not the difference of its totals the cards disagree,
    and an empty fetch or a message without data for the selected
    platform leaves them so. *)
Theorem kpi_balance_is_the_difference :
  Notions.balanced KPICards.initialStats
  ∧ (∀ prev response,
       Notions.balanced prev →
       Notions.balanced (KPICards.fetchStats prev response))
  ∧ (∀ prev realtimeData platformFilter timeFilter timeRange,
       platformFilter ≠ "all" → Notions.balanced prev →
       Notions.balanced
         (KPICards.applyRealtime prev realtimeData platformFilter
            timeFilter timeRange))
  ∧ (∀ prev response,
       KPICards.fetchStats prev response ≠ prev →
       Notions.balanced (KPICards.fetchStats prev response))
  ∧ (∀ prev realtimeData platformFilter timeFilter timeRange,
       platformFilter ≠ "all" →
       KPICards.applyRealtime prev realtimeData platformFilter
         timeFilter timeRange ≠ prev →
       Notions.balanced
         (KPICards.applyRealtime prev realtimeData platformFilter
            timeFilter timeRange))
  ∧ (let shown :=
       KPICards.applyRealtime KPICards.initialStats (Some skewedTotals)
         "all" KPICards.hour None in
     ¬ Notions.balanced shown
     ∧ KPICards.fetchStats shown (Some []) = shown
     ∧ KPICards.applyRealtime shown (Some skewedTotals) "platform1"
         KPICards.hour None = shown).
Proof.
  split; [done|split; [|split; [|split; [|split]]]].
  - intros prev [buckets|] Hp; [|done]. cbn [KPICards.fetchStats].
    unfold KPICards.mergeFetched.
    by destruct (negb _ && _).
  - intros prev [rt|] pf tf tr Hpf Hp; [|done].
    unfold KPICards.applyRealtime.
    destruct (KPICards.has_range tr); [done|].
    destruct tf; try done;
      (rewrite decide_False by done;
       destruct (Dashboard.platforms rt ≫= _); [|done];
       by apply mergeLive_balanced).
  - intros prev [buckets|]; [|done]. cbn [KPICards.fetchStats].
    unfold KPICards.mergeFetched.
    by destruct (negb _ && _).
  - intros prev [rt|] pf tf tr Hpf; [|done].
    unfold KPICards.applyRealtime.
    destruct (KPICards.has_range tr); [done|].
    destruct tf; try done;
      (rewrite decide_False by done;
       destruct (Dashboard.platforms rt ≫= _) as [platData|]; [|done];
       match goal with
       | |- KPICards.mergeLive ?p ?n ≠ _ → _ =>
           destruct (mergeLive_cases p n) as [->|[-> _]]; done
       end).
  - cbv zeta. split; [|split]; [|reflexivity|reflexivity].
    vm_compute. discriminate.
Qed.

Lemma kpi_balance_is_the_difference_witness :
  Notions.balanced
    (KPICards.applyRealtime KPICards.initialStats
       (Some {| Dashboard.total := None;
                Dashboard.platforms :=
                  Some [("platform1",
                         Some {| Dashboard.total_loaded := Some 9%Z;
                                 Dashboard.total_unloaded := Some 4%Z;
                                 Dashboard.status := None;
                                 Dashboard.stat_zones := None |})] |})
       "platform1" KPICards.hour None).
Proof.
  apply (proj1 (proj2 (proj2 kpi_balance_is_the_difference))); done.
Defined.

(** X17: the aggregation period requested from the charts endpoint is
    always one of hour, day, week and month (never the custom or the
    all filter); for a range with both ends set and valid it is chosen
    by the length of the range, at most one day giving hour, at most 7
    days day, at most 60 days week and more month, a reversed range
    counting as empty; a longer range never gives a finer period; an
    invalid date gives month. *)
Theorem endpoint_is_a_backend_period :
  (∀ getTime timeFilter timeRange,
     KPICards.computeEndpoint getTime timeFilter timeRange
     ∈ [KPICards.hour; KPICards.day; KPICards.week; KPICards.month])
  ∧ (∀ getTime timeFilter s e ts te,
       truthy_string s = true → truthy_string e = true →
       getTime s = Some ts → getTime e = Some te →
       let ms := Z.max 0 (te - ts) in
       KPICards.computeEndpoint getTime timeFilter
         (Some {| KPICards.range_start := Some s;
                  KPICards.range_end := Some e |})
       = if decide (ms ≤ KPICards.MS_PER_DAY)%Z then KPICards.hour
         else if decide (ms ≤ 7 * KPICards.MS_PER_DAY)%Z then KPICards.day
         else if decide (ms ≤ 60 * KPICards.MS_PER_DAY)%Z then KPICards.week
         else KPICards.month)
  ∧ (∀ a b : Z,
       (a ≤ b)%Z →
       Notions.periodRank (KPICards.periodOfDiff (Some a))
       ≤ Notions.periodRank (KPICards.periodOfDiff (Some b)))
  ∧ KPICards.periodOfDiff None = KPICards.month.
Proof.
  split; [|split; [|split]].
  - intros getTime tf tr. unfold KPICards.computeEndpoint.
    assert (∀ d, KPICards.periodOfDiff d
                 ∈ [KPICards.hour; KPICards.day; KPICards.week;
                    KPICards.month]) as Hp.
    { intros [ms|]; [|set_solver]. rewrite periodOfDiff_thresholds.
      repeat case_decide; set_solver. }
    destruct (KPICards.truthy_field (tr ≫= KPICards.range_start)) as [s|],
      (KPICards.truthy_field (tr ≫= KPICards.range_end)) as [e|];
      destruct tf; cbn; first [apply Hp | set_solver].
  - intros getTime tf s e ts te Hs He Hts Hte ms.
    unfold KPICards.computeEndpoint. cbn. rewrite Hs, He.
    assert (KPICards.diffMs getTime s e = Some ms) as Hd.
    { unfold KPICards.diffMs. by rewrite Hts, Hte. }
    destruct tf; cbn; rewrite Hd; apply periodOfDiff_thresholds.
  - apply periodOfDiff_mono.
  - done.
Qed.

Lemma endpoint_is_a_backend_period_witness :
  KPICards.computeEndpoint
    (λ s, if decide (s = "2026-01-01T00:00") then Some 0%Z
          else Some 172800000%Z)
    KPICards.custom
    (Some {| KPICards.range_start := Some "2026-01-01T00:00";
             KPICards.range_end := Some "2026-01-03T00:00" |})
  = KPICards.day.
Proof.
  rewrite (proj1 (proj2 endpoint_is_a_backend_period) _ KPICards.custom
             "2026-01-01T00:00" "2026-01-03T00:00" 0%Z 172800000%Z);
    reflexivity.
Defined.

(** ** The chart and the historical views *)

Section ChartFacts.

Import Charts.

Lemma realTimeData_length labels l u :
  length (realTimeData labels l u) = length labels.
Proof. unfold realTimeData. apply length_imap. Qed.

Lemma realTimeData_lookup labels l u i label :
  labels !! i = Some label →
  realTimeData labels l u !! i
  = Some {| time := label;
            carregados := default 0%Z (l !! i);
            descarregados := default 0%Z (u !! i) |}.
Proof.
  intros Hi. unfold realTimeData. by rewrite list_lookup_imap, Hi.
Qed.

Lemma hasLiveValues_nonempty points :
  hasLiveValues points = true → points ≠ [].
Proof. by destruct points. Qed.

Lemma mergeFetched_nonempty prev newData :
  prev ≠ [] → mergeFetched prev newData ≠ [].
Proof.
  intros Hp. unfold mergeFetched.
  destruct newData as [|d ds], prev as [|p ps]; done.
Qed.

Lemma applyRealtime_nonempty data hourly isConnected tf tr pf :
  data ≠ [] → applyRealtime data hourly isConnected tf tr pf ≠ [].
Proof.
  intros Hd. unfold applyRealtime.
  destruct hourly as [h|]; [|done].
  destruct (negb isConnected); [done|].
  destruct (KPICards.has_range tr); [done|].
  destruct tf; try done;
    (destruct (if decide (pf = "all") then _ else _) as [[[l|] [u|]]|];
       try done;
     destruct (hasLiveValues (realTimeData (labels h) l u)) eqn:Hlive;
       [by apply hasLiveValues_nonempty in Hlive|];
     by destruct data).
Qed.

End ChartFacts.

(** X18: once the chart holds data it never becomes empty: neither a
    fetch (empty, failed or not) nor a real-time message empties a
    non-empty series; and a real-time series has one point per label,
    carrying that label, with 0 for every value the message lacks. *)
Theorem chart_never_regresses_to_empty :
  (∀ data response,
     data ≠ [] → Charts.fetchChartData data response ≠ [])
  ∧ (∀ data hourly isConnected timeFilter timeRange platformFilter,
       data ≠ [] →
       Charts.applyRealtime data hourly isConnected timeFilter timeRange
         platformFilter ≠ [])
  ∧ (∀ labels l u,
       length (Charts.realTimeData labels l u) = length labels
       ∧ ∀ i label,
           labels !! i = Some label →
           Charts.realTimeData labels l u !! i
           = Some {| Charts.time := label;
                     Charts.carregados := default 0%Z (l !! i);
                     Charts.descarregados := default 0%Z (u !! i) |}).
Proof.
  split; [|split].
  - intros data [d|] Hd; [|done]. by apply mergeFetched_nonempty.
  - intros. by apply applyRealtime_nonempty.
  - intros labels l u. split; [apply realTimeData_length|].
    apply realTimeData_lookup.
Qed.

Lemma chart_never_regresses_to_empty_witness :
  Charts.fetchChartData
    [{| Charts.time := "10h"; Charts.carregados := 4%Z;
        Charts.descarregados := 1%Z |}]
    (Some None) ≠ [].
Proof.
  apply (proj1 chart_never_regresses_to_empty). done.
Defined.

(** X19: a real-time message never changes what a historical view
    shows: with a custom range set, or with the day, week, month or
    custom filter, the KPI totals and the chart stay as they are. *)
Theorem realtime_leaves_historical_views :
  (∀ prev realtimeData platformFilter timeFilter timeRange,
     KPICards.has_range timeRange = true
     ∨ timeFilter ∈ [KPICards.day; KPICards.week; KPICards.month;
                     KPICards.custom] →
     KPICards.applyRealtime prev realtimeData platformFilter timeFilter
       timeRange = prev)
  ∧ (∀ data hourly isConnected platformFilter timeFilter timeRange,
       KPICards.has_range timeRange = true
       ∨ timeFilter ∈ [KPICards.day; KPICards.week; KPICards.month;
                       KPICards.custom] →
       Charts.applyRealtime data hourly isConnected timeFilter timeRange
         platformFilter = data).
Proof.
  split.
  - intros prev [rt|] pf tf tr Hhist; [|done].
    unfold KPICards.applyRealtime.
    destruct (KPICards.has_range tr); [done|].
    destruct Hhist as [?|Htf]; [done|].
    destruct tf; try done; exfalso; revert Htf;
      rewrite !elem_of_cons, elem_of_nil; naive_solver.
  - intros data [h|] c pf tf tr Hhist; [|done].
    unfold Charts.applyRealtime. destruct (negb c); [done|].
    destruct (KPICards.has_range tr); [done|].
    destruct Hhist as [?|Htf]; [done|].
    destruct tf; try done; exfalso; revert Htf;
      rewrite !elem_of_cons, elem_of_nil; naive_solver.
Qed.

(** ** Zone counters on a tile *)

Section DisplayFacts.

Import PlatformGrid.
Local Open Scope Z_scope.

Lemma quarter_iff (c t : Z) :
  (ZONE_DISPLAY_THRESHOLD * inject_Z t <= inject_Z c)%Q ↔ t ≤ 4 * c.
Proof.
  unfold ZONE_DISPLAY_THRESHOLD, Qle, Qmult, inject_Z. cbn. lia.
Qed.

Lemma shown_iff (c t : Z) :
  shouldShowZoneCount c t = true ↔ 0 < c ∧ (t ≤ 0 ∨ t ≤ 4 * c).
Proof.
  destruct (Z.lt_ge_cases 0 c) as [Hc|Hc].
  - rewrite shouldShowZoneCount_positive, quarter_iff by done. tauto.
  - split; [|lia]. intros Hshow. exfalso.
    unfold shouldShowZoneCount, truthy_Z in Hshow.
    destruct (Z.eqb_spec c 0) as [->|?]; [done|].
    destruct (Z.leb_spec c 0); [done|lia].
Qed.

Lemma displayedCount_cases (c t : Z) :
  (displayedCount c t = c ∧ 0 < c ∧ (t ≤ 0 ∨ t ≤ 4 * c))
  ∨ (displayedCount c t = 0 ∧ ¬ (0 < c ∧ (t ≤ 0 ∨ t ≤ 4 * c))).
Proof.
  unfold displayedCount.
  destruct (shouldShowZoneCount c t) eqn:Hshow.
  - left. by apply shown_iff in Hshow.
  - right. split; [done|]. intros H%shown_iff. congruence.
Qed.

End DisplayFacts.

(** X20: the number a tile prints is never negative and never more
    than the zone's counter (when that is positive); for a fixed
    platform total a larger counter never prints less, and for a fixed
    counter a larger positive total never prints more. *)
Theorem displayed_count_bounds_and_monotone :
  (∀ c t : Z,
     (0 ≤ PlatformGrid.displayedCount c t ≤ Z.max 0 c)%Z)
  ∧ (∀ c c' t : Z,
       (c ≤ c')%Z →
       (PlatformGrid.displayedCount c t
        ≤ PlatformGrid.displayedCount c' t)%Z)
  ∧ (∀ c t t' : Z,
       (0 < t ≤ t')%Z →
       (PlatformGrid.displayedCount c t'
        ≤ PlatformGrid.displayedCount c t)%Z).
Proof.
  split; [|split].
  - intros c t.
    destruct (displayedCount_cases c t) as [(-> & ? & _)|[-> _]]; lia.
  - intros c c' t Hc.
    destruct (displayedCount_cases c t) as [(-> & ? & ?)|[-> ?]],
      (displayedCount_cases c' t) as [(-> & ? & ?)|[-> ?]]; lia.
  - intros c t t' Ht.
    destruct (displayedCount_cases c t) as [(-> & ? & ?)|[-> ?]],
      (displayedCount_cases c t') as [(-> & ? & ?)|[-> ?]]; lia.
Qed.

Lemma displayed_count_bounds_and_monotone_witness :
  (PlatformGrid.displayedCount 30 100 ≤ PlatformGrid.displayedCount 30 40)%Z.
Proof.
  apply (proj2 (proj2 displayed_count_bounds_and_monotone)). lia.
Defined.

(** ** A save answered by what was posted *)

(** X21: when the server answers the reload of a save with the body
    that was posted, every defined zone under a fixed name keeps its
    geometry, every other fixed name becomes [null], keys that are no
    fixed name are dropped, and the selection and the transient points
    are untouched. *)
Theorem save_echo_keeps_defined_zones platform st :
  let saved :=
    (handleSave_resume platform st true
       (Body (Some (serializeZones (zones st))))).1 in
  (∀ n,
     zones saved !! n
     = if decide (n ∈ FIXED_ZONE_NAMES)
       then Some (default None (zones st !! n))
       else None)
  ∧ currentZone saved = currentZone st
  ∧ tempPoints saved = tempPoints st.
Proof.
  cbn zeta. unfold handleSave_resume, afterPost. cbn [fst zones currentZone
    tempPoints]. split; [|done].
  intros n. rewrite reloadZones_lookup.
  destruct (decide (n ∈ FIXED_ZONE_NAMES)) as [Hn|Hn]; [|done].
  f_equal. unfold Notions.slotOf. cbn [remoteEntry].
  rewrite get_serializeZones, decide_True by done.
  destruct (zones st !! n) as [[zone|]|]; cbn; [|done|done].
  apply decodeZone_encodeZone.
Qed.
